(** * Stake-and-mint inter-chain communicator: a shallow embedding

  The development follows three source files of the repository:

  - [executables/inter_comm/stake_and_mint_processor.js]: the event
    subscription ([bindEvents], [listenToDesiredEvent], [onEvent],
    [onEventSubscriptionError]), the helper [equalsIgnoreCase] installed
    on [String.prototype], and the asynchronous [processor];
  - [services/stake_and_mint/approveOpenStValueContract.js]: [getSTBalance],
    [approve] and [approveOpenStValueContract];
  - the delay queue of [lib/web3/events/queue_manager], which the
    executable only calls.

  JavaScript values are a small inductive type, asynchronous functions are
  computations in a writer/exception monad whose trace records every log
  line and every call made to a contract-interaction library. *)

From Stdlib Require Import Bool Ascii String List ZArith Lia.
Import ListNotations.

Local Open Scope string_scope.
Local Open Scope list_scope.

Set Warnings "-register-all,-notation-for-abbreviation".

(* ------------------------------------------------------------------ *)
(** ** JavaScript values *)

Module JS.

(** The values that flow through the program: event fields and
    configuration entries are strings (hexadecimal addresses and hashes),
    possibly absent; responses of the libraries are plain objects.  An
    object is the list of its own properties. *)
Inductive jsval : Type :=
| JUndefined
| JNull
| JBool (b : bool)
| JString (s : string)
| JObject (props : list (string * jsval)).

(** What a throwing expression throws: the engine's [TypeError], or the
    reason a rejected promise carries. *)
Inductive exn : Type :=
| TypeError
| Thrown (reason : jsval).

(** Completion of an expression or of a function body. *)
Inductive completion (A : Type) : Type :=
| Normal (a : A)
| Abrupt (e : exn).
Arguments Normal {A} a.
Arguments Abrupt {A} e.

(** Settled state of a promise returned by a library. *)
Inductive outcome : Type :=
| Resolved (value : jsval)
| Rejected (reason : jsval).

Fixpoint assoc (k : string) (props : list (string * jsval)) : jsval :=
  match props with
  | [] => JUndefined
  | (k', v) :: rest => if String.eqb k k' then v else assoc k rest
  end.

(** [o.k] for a property name [k] that is not a built-in member (the
    program reads [returnValues], [data], [balance] and the like): reading
    a property of [undefined] or [null] throws, a primitive has no such
    property, an object answers [undefined] for a property it lacks. *)
Definition get_prop (o : jsval) (k : string) : completion jsval :=
  match o with
  | JUndefined | JNull => Abrupt TypeError
  | JBool _ | JString _ => Normal JUndefined
  | JObject props => Normal (assoc k props)
  end.

(** [String(v)]. *)
Definition String_ (v : jsval) : string :=
  match v with
  | JUndefined => "undefined"
  | JNull => "null"
  | JBool true => "true"
  | JBool false => "false"
  | JString s => s
  | JObject _ => "[object Object]"
  end.

Definition is_upper (c : ascii) : bool :=
  let n := nat_of_ascii c in (65 <=? n)%nat && (n <=? 90)%nat.

Definition lower_char (c : ascii) : ascii :=
  if is_upper c then ascii_of_nat (nat_of_ascii c + 32) else c.

(** [s.toLowerCase()] on the ASCII strings the program handles. *)
Fixpoint toLowerCase (s : string) : string :=
  match s with
  | EmptyString => EmptyString
  | String c rest => String (lower_char c) (toLowerCase rest)
  end.

(** The body of [String.prototype.equalsIgnoreCase], [this] being the
    string [self]. *)
Definition equalsIgnoreCase (self : string) (compareWith : jsval) : bool :=
  let _self := toLowerCase self in
  let _compareWith := toLowerCase (String_ compareWith) in
  String.eqb _self _compareWith.

(** The method call [v.equalsIgnoreCase(compareWith)]: only strings have
    the method. *)
Definition call_equalsIgnoreCase (v compareWith : jsval) : completion bool :=
  match v with
  | JString s => Normal (equalsIgnoreCase s compareWith)
  | _ => Abrupt TypeError
  end.

(** Two strings that differ at most in the case of their letters, the
    second being what [String] makes of a value. *)
Definition same_ignoring_case (x : string) (v : jsval) : Prop :=
  toLowerCase x = toLowerCase (String_ v).

End JS.

(* ------------------------------------------------------------------ *)
(** ** Asynchronous bodies *)

Module Async.
Import JS.

(** The four methods of [helpers/custom_console_logger] the sources use. *)
Inductive level : Type := LLog | LError | LStep | LWin.

(** What a body does to the outside: it writes a log line or calls a
    contract-interaction library; [C] is the type of those calls. *)
Inductive effect (C : Type) : Type :=
| Log (l : level) (args : list jsval)
| Chain (c : C).
Arguments Log {C} l args.
Arguments Chain {C} c.

(** A body that has run: the effects it performed, in order, and how it
    ended. *)
Definition M (C A : Type) : Type := list (effect C) * completion A.

Definition ret {C A} (a : A) : M C A := ([], Normal a).

Definition bind {C A B} (m : M C A) (f : A -> M C B) : M C B :=
  match m with
  | (t, Normal a) => let (t', r) := f a in (t ++ t', r)
  | (t, Abrupt e) => (t, Abrupt e)
  end.

Definition lift {C A} (c : completion A) : M C A := ([], c).

Definition logger {C} (l : level) (args : list jsval) : M C unit :=
  ([Log l args], Normal tt).

(** [await lib.method(...)], or [lib.method(...).then(...)]: the call is
    made, then the continuation runs with the resolved value, or the
    rejection reason is thrown. *)
Definition await {C} (c : C) (o : outcome) : M C jsval :=
  match o with
  | Resolved v => ([Chain c], Normal v)
  | Rejected r => ([Chain c], Abrupt (Thrown r))
  end.

Definition emit {C A} (e : effect C) (m : M C A) : M C A :=
  (e :: fst m, snd m).

Fixpoint chain_calls {C} (t : list (effect C)) : list C :=
  match t with
  | [] => []
  | Chain c :: rest => c :: chain_calls rest
  | Log _ _ :: rest => chain_calls rest
  end.

(** The library calls a body made, in the order it made them. *)
Definition calls_of {C A} (m : M C A) : list C := chain_calls (fst m).

(** The promise an asynchronous function hands to its caller. *)
Inductive promise (A : Type) : Type :=
| Fulfilled (a : A)
| RejectedWith (e : exn).
Arguments Fulfilled {A} a.
Arguments RejectedWith {A} e.

Definition settle {C A} (m : M C A) : promise A :=
  match snd m with
  | Normal a => Fulfilled a
  | Abrupt e => RejectedWith e
  end.

Declare Scope js_scope.
Delimit Scope js_scope with js.
Notation "x <- m ;; k" := (bind m (fun x => k))
  (at level 100, m at next level, right associativity) : js_scope.
Notation "m ;; k" := (bind m (fun _ => k))
  (at level 100, right associativity) : js_scope.

End Async.

(* ------------------------------------------------------------------ *)
(** ** Configuration *)

Module Config.
Import JS.

(** What [config/core_addresses] and [config/core_constants] answer:
    [getAddressForUser('staker')], [getPassphraseForUser('staker')],
    [getAddressForContract('openSTValue')] and the constant
    [OST_OPENSTUTILITY_ST_PRIME_UUID]. *)
Record config : Type := {
  stakerAddress : jsval;
  stakerPassphrase : jsval;
  openSTValueContractAddress : jsval;
  OST_OPENSTUTILITY_ST_PRIME_UUID : jsval
}.

End Config.

(* ------------------------------------------------------------------ *)
(** ** The processor of [stake_and_mint_processor.js] *)

Module Processor.
Import JS Async Config.
Local Open Scope js_scope.

(** Results built by [lib/formatter/response]. *)
Inductive response : Type :=
| ResponseError (code msg : string)
| ResponseSuccess (data : jsval).

Definition responseHelper_error (code msg : string) : response :=
  ResponseError code msg.

Definition responseHelper_successWithData (data : jsval) : response :=
  ResponseSuccess data.

(** Calls into [openst_value], [openst_utility] and [branded_token]; a
    branded-token handle is identified by the object it was built from. *)
Inductive call : Type :=
| ProcessStaking (sender passphrase stakingIntentHash : jsval)
| ProcessMinting (sender passphrase stakingIntentHash : jsval)
| RegisteredTokenProperty (uuid : jsval)
| Claim (selectedMember sender passphrase beneficiary : jsval).

(** How the libraries answer during one run of the processor. *)
Record collaborators : Type := {
  processStaking : jsval -> jsval -> jsval -> outcome;
  processMinting : jsval -> jsval -> jsval -> outcome;
  registeredTokenProperty : jsval -> outcome;
  claim : jsval -> jsval -> jsval -> jsval -> outcome
}.

Definition processor (cfg : config) (lib : collaborators) (eventObj : jsval)
  : M call response :=
  returnValues <- lift (get_prop eventObj "returnValues") ;;
  stakingIntentHash <- lift (get_prop returnValues "_stakingIntentHash") ;;
  staker <- lift (get_prop returnValues "_staker") ;;
  beneficiary <- lift (get_prop returnValues "_beneficiary") ;;
  uuid <- lift (get_prop returnValues "_uuid") ;;
  let stakerAddress := stakerAddress cfg in
  let stakerPassphrase := stakerPassphrase cfg in
  same <- lift (call_equalsIgnoreCase stakerAddress staker) ;;
  if negb same then
    ret (responseHelper_error "e_ic_samp_1"
           "staker is not same as the internal staker account.")
  else
    logger LStep [stakingIntentHash; JString " :: performing processStaking"] ;;
    await (ProcessStaking stakerAddress stakerPassphrase stakingIntentHash)
          (processStaking lib stakerAddress stakerPassphrase stakingIntentHash) ;;
    logger LWin [stakingIntentHash; JString " :: performed processStaking"] ;;
    logger LStep [stakingIntentHash; JString " :: performing processMinting"] ;;
    await (ProcessMinting stakerAddress stakerPassphrase stakingIntentHash)
          (processMinting lib stakerAddress stakerPassphrase stakingIntentHash) ;;
    logger LWin [stakingIntentHash; JString " :: performed processMinting"] ;;
    logger LStep [stakingIntentHash; JString " :: performing claim"] ;;
    native <- lift (call_equalsIgnoreCase uuid
                      (OST_OPENSTUTILITY_ST_PRIME_UUID cfg)) ;;
    (if native then ret tt
     else
       registeredOnUCResult <-
         await (RegisteredTokenProperty uuid)
               (registeredTokenProperty lib uuid) ;;
       data <- lift (get_prop registeredOnUCResult "data") ;;
       erc20Address <- lift (get_prop data "erc20Address") ;;
       let selectedMember := JObject [("ERC20", erc20Address)] in
       await (Claim selectedMember stakerAddress stakerPassphrase beneficiary)
             (claim lib selectedMember stakerAddress stakerPassphrase
                beneficiary) ;;
       ret tt) ;;
    logger LWin [stakingIntentHash; JString " :: performed claim"] ;;
    ret (responseHelper_successWithData
           (JObject [("staking_intent_hash", stakingIntentHash)])).

(** *** Vocabulary of the statements *)

(** The event object has readable [returnValues] holding these fields. *)
Definition carries (eventObj hash staker beneficiary uuid : jsval) : Prop :=
  exists returnValues,
    get_prop eventObj "returnValues" = Normal returnValues /\
    get_prop returnValues "_stakingIntentHash" = Normal hash /\
    get_prop returnValues "_staker" = Normal staker /\
    get_prop returnValues "_beneficiary" = Normal beneficiary /\
    get_prop returnValues "_uuid" = Normal uuid.

(** The answer the libraries give to a call. *)
Definition answer (lib : collaborators) (c : call) : outcome :=
  match c with
  | ProcessStaking a p h => processStaking lib a p h
  | ProcessMinting a p h => processMinting lib a p h
  | RegisteredTokenProperty u => registeredTokenProperty lib u
  | Claim m a p b => claim lib m a p b
  end.

(** The lookup result lets the processor read [.data.erc20Address]. *)
Definition has_erc20Address (result erc20Address : jsval) : Prop :=
  exists data,
    get_prop result "data" = Normal data /\
    get_prop data "erc20Address" = Normal erc20Address.

(** A call that resolved, with a usable value if it is the lookup. *)
Definition succeeded (lib : collaborators) (c : call) : Prop :=
  exists v, answer lib c = Resolved v /\
    match c with
    | RegisteredTokenProperty _ => exists a, has_erc20Address v a
    | _ => True
    end.

(** Two answers that settle the same way: both resolved, with whatever
    values, or both rejected with the same reason. *)
Definition settles_alike (o o' : outcome) : Prop :=
  match o, o' with
  | Resolved _, Resolved _ => True
  | Rejected r, Rejected r' => r = r'
  | _, _ => False
  end.

Definition unauthorized_response : response :=
  ResponseError "e_ic_samp_1"
    "staker is not same as the internal staker account.".

Definition success_response (stakingIntentHash : jsval) : response :=
  ResponseSuccess (JObject [("staking_intent_hash", stakingIntentHash)]).

(** The runs of the processor, by the calls made and the promise returned;
    [a] and [p] are the configured account and passphrase. *)
Inductive run_shape (lib : collaborators) (a p : jsval)
  : list call -> promise response -> Prop :=
| shape_unauthorized :
    run_shape lib a p [] (Fulfilled unauthorized_response)
| shape_unreadable :
    run_shape lib a p [] (RejectedWith TypeError)
| shape_stage1_rejected h r :
    processStaking lib a p h = Rejected r ->
    run_shape lib a p [ProcessStaking a p h] (RejectedWith (Thrown r))
| shape_stage2_rejected h v r :
    processStaking lib a p h = Resolved v ->
    processMinting lib a p h = Rejected r ->
    run_shape lib a p [ProcessStaking a p h; ProcessMinting a p h]
      (RejectedWith (Thrown r))
| shape_uuid_not_string h v1 v2 :
    processStaking lib a p h = Resolved v1 ->
    processMinting lib a p h = Resolved v2 ->
    run_shape lib a p [ProcessStaking a p h; ProcessMinting a p h]
      (RejectedWith TypeError)
| shape_native h v1 v2 :
    processStaking lib a p h = Resolved v1 ->
    processMinting lib a p h = Resolved v2 ->
    run_shape lib a p [ProcessStaking a p h; ProcessMinting a p h]
      (Fulfilled (success_response h))
| shape_lookup_rejected h u v1 v2 r :
    processStaking lib a p h = Resolved v1 ->
    processMinting lib a p h = Resolved v2 ->
    registeredTokenProperty lib u = Rejected r ->
    run_shape lib a p
      [ProcessStaking a p h; ProcessMinting a p h; RegisteredTokenProperty u]
      (RejectedWith (Thrown r))
| shape_lookup_unreadable h u v1 v2 v3 :
    processStaking lib a p h = Resolved v1 ->
    processMinting lib a p h = Resolved v2 ->
    registeredTokenProperty lib u = Resolved v3 ->
    run_shape lib a p
      [ProcessStaking a p h; ProcessMinting a p h; RegisteredTokenProperty u]
      (RejectedWith TypeError)
| shape_claim_rejected h u m b v1 v2 v3 r :
    processStaking lib a p h = Resolved v1 ->
    processMinting lib a p h = Resolved v2 ->
    registeredTokenProperty lib u = Resolved v3 ->
    claim lib m a p b = Rejected r ->
    run_shape lib a p
      [ProcessStaking a p h; ProcessMinting a p h; RegisteredTokenProperty u;
       Claim m a p b]
      (RejectedWith (Thrown r))
| shape_claimed h u m b v1 v2 v3 v4 :
    processStaking lib a p h = Resolved v1 ->
    processMinting lib a p h = Resolved v2 ->
    registeredTokenProperty lib u = Resolved v3 ->
    claim lib m a p b = Resolved v4 ->
    run_shape lib a p
      [ProcessStaking a p h; ProcessMinting a p h; RegisteredTokenProperty u;
       Claim m a p b]
      (Fulfilled (success_response h)).

End Processor.

(* ------------------------------------------------------------------ *)
(** ** The service of [approveOpenStValueContract.js] *)

Module Approve.
Import JS Async Config.
Local Open Scope js_scope.

(** The number object [new BigNumber(value)] of bignumber.js. *)
Inductive bignumber : Type :=
| BigNumber (value : jsval).

(** Calls into [lib/contract_interact/simple_token]. *)
Inductive call : Type :=
| BalanceOf (address : jsval)
| ApproveCall (owner passphrase spender : jsval) (amount : bignumber)
    (inAsync : jsval).

Record simpleTokenContractInteract : Type := {
  st_balanceOf : jsval -> outcome;
  st_approve : jsval -> jsval -> jsval -> bignumber -> jsval -> outcome
}.

Definition getSTBalance (lib : simpleTokenContractInteract) (address : jsval)
  : M call bignumber :=
  logger LStep [JString "Getting ST Balance of Staker account: "; address] ;;
  result <- await (BalanceOf address) (st_balanceOf lib address) ;;
  data <- lift (get_prop result "data") ;;
  stBalance <- lift (get_prop data "balance") ;;
  logger LWin [JString "ST Balance of Staker account: "; address;
               JString " obtained."] ;;
  ret (BigNumber stBalance).

Definition approve (cfg : config) (lib : simpleTokenContractInteract)
  (stakerAddress passphrase : jsval) (toApproveAmount : bignumber)
  : M call jsval :=
  await (ApproveCall stakerAddress passphrase (openSTValueContractAddress cfg)
           toApproveAmount (JBool true))
        (st_approve lib stakerAddress passphrase
           (openSTValueContractAddress cfg) toApproveAmount (JBool true)).

Definition approveOpenStValueContract (cfg : config)
  (lib : simpleTokenContractInteract) : M call jsval :=
  let stakerAddress := stakerAddress cfg in
  let stakerPassphrase := stakerPassphrase cfg in
  bigSTBalance <- getSTBalance lib stakerAddress ;;
  approve cfg lib stakerAddress stakerPassphrase bigSTBalance.

(** The balance object [balanceOf] resolved with lets [getSTBalance] read
    [.data.balance]. *)
Definition has_balance (result balance : jsval) : Prop :=
  exists data,
    get_prop result "data" = Normal data /\
    get_prop data "balance" = Normal balance.

End Approve.

(* ------------------------------------------------------------------ *)
(** ** The event subscription of [stake_and_mint_processor.js] *)

Module Subscription.
Import JS Async.

Section Adapter.

(** The state of [lib/web3/events/queue_manager] and its method
    [addEditEventInQueue], which [onEvent] calls. *)
Variable queue : Type.
Variable addEditEventInQueue : jsval -> queue -> queue.

(** What the handlers can touch: the queue manager and the console. *)
Record world : Type := {
  eventQueue : queue;
  console : list (level * list jsval)
}.

Definition handler : Type := jsval -> world -> world.

Definition logger_write (l : level) (args : list jsval) (w : world) : world :=
  {| eventQueue := eventQueue w; console := console w ++ [(l, args)] |}.

Definition onEvent : handler :=
  fun eventObj w =>
    {| eventQueue := addEditEventInQueue eventObj (eventQueue w);
       console := console w |}.

Definition onEventSubscriptionError : handler :=
  fun error w =>
    logger_write LError [error]
      (logger_write LLog [JString "onEventSubscriptionError triggered"] w).

(** The emitter returned by [completeContract.events.StakingIntentConfirmed]:
    its listeners, in registration order. *)
Definition emitter : Type := list (string * handler).

Definition on (name : string) (h : handler) (e : emitter) : emitter :=
  e ++ [(name, h)].

Fixpoint emit_event (e : emitter) (name : string) (arg : jsval) (w : world)
  : world :=
  match e with
  | [] => w
  | (n, h) :: rest =>
      emit_event rest name arg (if String.eqb n name then h arg w else w)
  end.

Definition listenToDesiredEvent (onError onData onChange : handler)
  : emitter :=
  on "changed" onChange (on "data" onData (on "error" onError [])).

Definition bindEvents (w : world) : emitter * world :=
  let w1 :=
    logger_write LLog [JString "bindEvents binding StakingIntentConfirmed"] w in
  let subscription :=
    listenToDesiredEvent onEventSubscriptionError onEvent onEvent in
  (subscription, logger_write LLog [JString "bindEvents done"] w1).

(** What the transport delivers to the subscription. *)
Inductive notification : Type :=
| NError (error : jsval)
| NData (eventObj : jsval)
| NChanged (eventObj : jsval).

Definition notify (e : emitter) (n : notification) (w : world) : world :=
  match n with
  | NError error => emit_event e "error" error w
  | NData eventObj => emit_event e "data" eventObj w
  | NChanged eventObj => emit_event e "changed" eventObj w
  end.

Fixpoint deliver (e : emitter) (ns : list notification) (w : world) : world :=
  match ns with
  | [] => w
  | n :: rest => deliver e rest (notify e n w)
  end.

(** The stream in which every reorganisation notice is a data notice. *)
Definition as_data (n : notification) : notification :=
  match n with
  | NChanged eventObj => NData eventObj
  | _ => n
  end.

(** The stream without its subscription errors. *)
Definition is_error (n : notification) : bool :=
  match n with
  | NError _ => true
  | _ => false
  end.

Definition without_errors (ns : list notification) : list notification :=
  filter (fun n => negb (is_error n)) ns.

End Adapter.

Arguments eventQueue {queue} w.
Arguments console {queue} w.

End Subscription.

(* ------------------------------------------------------------------ *)
(** ** The delay queue behind [eventQueueManager] *)

Module DelayQueue.
Import JS.

(** Modelled from the spec: the life cycle of a queue entry of
    [lib/web3/events/queue_manager]. *)
Inductive state : Type := Pending | Due | Processing | Done | Failed.

(** Modelled from the spec: the outcome of a pipeline run handed to
    [complete] of [lib/web3/events/queue_manager]. *)
Inductive PipelineResult : Type :=
| Success (identityKey : string) (producedData : jsval)
| Error (identityKey : string) (code message : string).

(** Modelled from the spec: an entry of the queue of
    [lib/web3/events/queue_manager]. *)
Record QueuedEvent : Type := {
  identityKey : string;
  payload : jsval;
  observedHeight : Z;
  entry_state : state
}.

(** Modelled from the spec: the queue of [lib/web3/events/queue_manager],
    its confirmation policy, its active index in insertion order and the
    entries that left it as [Done] or [Failed]. *)
Record queue : Type := {
  delayBlocks : Z;
  active : list QueuedEvent;
  finished : list QueuedEvent
}.

Definition set_state (s : state) (e : QueuedEvent) : QueuedEvent :=
  {| identityKey := identityKey e; payload := payload e;
     observedHeight := observedHeight e; entry_state := s |}.

Definition is_state (s : state) (e : QueuedEvent) : bool :=
  match s, entry_state e with
  | Pending, Pending | Due, Due | Processing, Processing
  | Done, Done | Failed, Failed => true
  | _, _ => false
  end.

(** Modelled from the spec: an entry is live while it is [Pending], [Due]
    or [Processing]. *)
Definition live (e : QueuedEvent) : bool :=
  match entry_state e with
  | Pending | Due | Processing => true
  | Done | Failed => false
  end.

Definition live_for (key : string) (e : QueuedEvent) : bool :=
  String.eqb (identityKey e) key && live e.

Definition empty (delay : Z) : queue :=
  {| delayBlocks := delay; active := []; finished := [] |}.

(** Modelled from the spec: [claim] of [lib/web3/events/queue_manager] on
    the active index: the oldest [Due] entry becomes [Processing]. *)
Fixpoint claim_oldest (l : list QueuedEvent)
  : option QueuedEvent * list QueuedEvent :=
  match l with
  | [] => (None, [])
  | e :: rest =>
      if is_state Due e then
        (Some (set_state Processing e), set_state Processing e :: rest)
      else
        let (found, rest') := claim_oldest rest in (found, e :: rest')
  end.

(** At most one live entry per key in the active index, and nothing live
    among the entries that left it. *)
Definition well_formed (q : queue) : Prop :=
  (forall key, length (filter (live_for key) (active q)) <= 1) /\
  Forall (fun e => live e = false) (finished q).

Section Queue.

(** Modelled from the spec: the identity key that
    [lib/web3/events/queue_manager] derives from an event's payload. *)
Variable identityKey_of : jsval -> string.

(** Modelled from the spec: [enqueue] of [lib/web3/events/queue_manager];
    [currentHeight] is the chain height observed at the time of the call. *)
Definition enqueue (currentHeight : Z) (event : jsval) (q : queue) : queue :=
  let key := identityKey_of event in
  if existsb (live_for key) (active q) then q
  else
    {| delayBlocks := delayBlocks q;
       active := active q ++
         [{| identityKey := key; payload := event;
             observedHeight := currentHeight; entry_state := Pending |}];
       finished := finished q |}.

(** Modelled from the spec: [tick] of [lib/web3/events/queue_manager]. *)
Definition tick (currentHeight : Z) (q : queue) : queue :=
  {| delayBlocks := delayBlocks q;
     active :=
       map (fun e =>
              if is_state Pending e &&
                 (delayBlocks q <=? currentHeight - observedHeight e)%Z
              then set_state Due e else e)
           (active q);
     finished := finished q |}.

(** Modelled from the spec: [claim] of [lib/web3/events/queue_manager]. *)
Definition claim (q : queue) : option QueuedEvent * queue :=
  let (found, active') := claim_oldest (active q) in
  (found,
   {| delayBlocks := delayBlocks q; active := active';
      finished := finished q |}).

(** Modelled from the spec: [complete] of [lib/web3/events/queue_manager]:
    the [Processing] entry of the key becomes [Done] or [Failed] by the tag
    of the result and leaves the active index. *)
Definition complete (key : string) (result : PipelineResult) (q : queue)
  : queue :=
  let final :=
    match result with
    | Success _ _ => Done
    | Error _ _ _ => Failed
    end in
  let completes e := String.eqb (identityKey e) key && is_state Processing e in
  {| delayBlocks := delayBlocks q;
     active := filter (fun e => negb (completes e)) (active q);
     finished :=
       finished q ++ map (set_state final) (filter completes (active q)) |}.

(** The operations a host performs on the queue. *)
Inductive op : Type :=
| Enqueue (currentHeight : Z) (event : jsval)
| Tick (currentHeight : Z)
| Claim
| Complete (key : string) (result : PipelineResult).

Definition step (o : op) (q : queue) : queue :=
  match o with
  | Enqueue h event => enqueue h event q
  | Tick h => tick h q
  | Claim => snd (claim q)
  | Complete key result => complete key result q
  end.

Fixpoint run (ops : list op) (q : queue) : queue :=
  match ops with
  | [] => q
  | o :: rest => run rest (step o q)
  end.

(** The live entries the queue holds for a key. *)
Definition live_entries (key : string) (q : queue) : list QueuedEvent :=
  filter (live_for key) (active q ++ finished q).

(** No operation of the list completes the key. *)
Definition completes_key (key : string) (o : op) : bool :=
  match o with
  | Complete k _ => String.eqb k key
  | _ => false
  end.

End Queue.

End DelayQueue.

(* ------------------------------------------------------------------ *)
(** ** Sample configuration, libraries and events *)

Module Sample.
Import JS Async Config.

Definition cfg : config :=
  {| stakerAddress := JString "0xAbC1";
     stakerPassphrase := JString "passphrase";
     openSTValueContractAddress := JString "0x5A1e";
     OST_OPENSTUTILITY_ST_PRIME_UUID := JString "0xfeed" |}.

Definition StakingIntentConfirmed (hash staker beneficiary uuid : string)
  : jsval :=
  JObject [("returnValues",
            JObject [("_uuid", JString uuid);
                     ("_stakingIntentHash", JString hash);
                     ("_staker", JString staker);
                     ("_beneficiary", JString beneficiary)])].

(** Staked by the configured account, for the native token (the uuid is
    written in upper case) and for a branded token. *)
Definition native_event : jsval :=
  StakingIntentConfirmed "0x1234" "0xABC1" "0xbbbb" "0xFEED".

Definition branded_event : jsval :=
  StakingIntentConfirmed "0x1234" "0xabc1" "0xbbbb" "0xcccc".

(** Staked by another account. *)
Definition foreign_event : jsval :=
  StakingIntentConfirmed "0x1234" "0xBBB2" "0xbbbb" "0xcccc".

Definition receipt : jsval := JObject [("data", JObject [])].

Definition token_property : jsval :=
  JObject [("data", JObject [("erc20Address", JString "0xdddd")])].

(** Every call resolves. *)
Definition lib_ok : Processor.collaborators :=
  {| Processor.processStaking := fun _ _ _ => Resolved receipt;
     Processor.processMinting := fun _ _ _ => Resolved receipt;
     Processor.registeredTokenProperty := fun _ => Resolved token_property;
     Processor.claim := fun _ _ _ _ => Resolved receipt |}.

(** The value chain refuses [processStaking]. *)
Definition lib_stage1_rejects : Processor.collaborators :=
  {| Processor.processStaking :=
       fun _ _ _ => Rejected (JString "processStaking reverted");
     Processor.processMinting := fun _ _ _ => Resolved receipt;
     Processor.registeredTokenProperty := fun _ => Resolved token_property;
     Processor.claim := fun _ _ _ _ => Resolved receipt |}.

Definition simple_token : Approve.simpleTokenContractInteract :=
  {| Approve.st_balanceOf :=
       fun _ => Resolved (JObject [("data", JObject [("balance", JString "1000")])]);
     Approve.st_approve := fun _ _ _ _ _ => Resolved (JString "0x7a11") |}.

(** The identity key of an event: its staking intent hash. *)
Definition intent_hash_key (event : jsval) : string :=
  match get_prop event "returnValues" with
  | Normal rv =>
      match get_prop rv "_stakingIntentHash" with
      | Normal h => String_ h
      | Abrupt _ => ""
      end
  | Abrupt _ => ""
  end.

End Sample.

(* ------------------------------------------------------------------ *)
(** ** The script of [stake_and_mint_processor.js] *)

Module Script.
Import JS Async Config Subscription.

Section Init.

Variable queue : Type.
Variable addEditEventInQueue : jsval -> queue -> queue.

(** [eventQueueManager.setProcessor], the other method of
    [lib/web3/events/queue_manager] the script calls; it is given the
    [processor] function. *)
Variable setProcessor :
  (jsval -> M Processor.call Processor.response) -> queue -> queue.

Variable cfg : config.
Variable lib : Processor.collaborators.

Definition init (w : world queue) : emitter queue * world queue :=
  let w1 :=
    {| eventQueue := setProcessor (Processor.processor cfg lib) (eventQueue w);
       console := console w |} in
  bindEvents queue addEditEventInQueue w1.

(** The last two statements of the file: a new instance is initialised,
    then the script logs that it has started. *)
Definition script (w : world queue) : emitter queue * world queue :=
  let (subscription, w1) := init w in
  (subscription,
   logger_write queue LWin
     [JString "InterComm Script for Stake and Mint Processor initiated."] w1).

End Init.

(** The event objects a stream hands to [onEvent], in order. *)
Fixpoint events_of (ns : list notification) : list jsval :=
  match ns with
  | [] => []
  | NError _ :: rest => events_of rest
  | NData eventObj :: rest => eventObj :: events_of rest
  | NChanged eventObj :: rest => eventObj :: events_of rest
  end.

(** The console lines a stream makes [onEventSubscriptionError] write. *)
Fixpoint error_lines (ns : list notification) : list (level * list jsval) :=
  match ns with
  | [] => []
  | NError error :: rest =>
      (LLog, [JString "onEventSubscriptionError triggered"])
        :: (LError, [error]) :: error_lines rest
  | _ :: rest => error_lines rest
  end.

End Script.

(* ------------------------------------------------------------------ *)
(** ** More vocabulary for the processor *)

Module ProcessorEdge.
Import JS Async Config Processor.

(** The sender and the passphrase of a transaction are the configured
    ones. *)
Definition uses_configured_account (cfg : config) (c : call) : Prop :=
  match c with
  | ProcessStaking a p _ | ProcessMinting a p _ | Claim _ a p _ =>
      a = stakerAddress cfg /\ p = stakerPassphrase cfg
  | RegisteredTokenProperty _ => True
  end.

(** The line the processor logs last. *)
Definition performed_claim (h : jsval) : effect call :=
  Log LWin [h; JString " :: performed claim"].

(** Modelled from the spec: the tag of a result value of
    [lib/formatter/response], which is not among the sources: a result is
    an [Error] rather than a [Success] when its [success] flag is
    [false]. *)
Definition reports_error (v : jsval) : bool :=
  match get_prop v "success" with
  | Normal (JBool false) => true
  | _ => false
  end.

(** A step has failed when its promise was rejected, or was resolved with
    a result that reports an error. *)
Definition failed (o : outcome) : Prop :=
  match o with
  | Rejected _ => True
  | Resolved v => reports_error v = true
  end.

End ProcessorEdge.

(* ------------------------------------------------------------------ *)
(** ** More sample inputs *)

Module SampleEdge.
Import JS Async Config.

(** An event object without [returnValues]. *)
Definition bare_event : jsval := JObject [("event", JString "StakingIntentConfirmed")].

(** Staked by the configured account, without a [_uuid]. *)
Definition event_without_uuid : jsval :=
  JObject [("returnValues",
            JObject [("_stakingIntentHash", JString "0x1234");
                     ("_staker", JString "0xabc1");
                     ("_beneficiary", JString "0xbbbb")])].

(** The branded event of [Sample], the staker written in upper case. *)
Definition branded_event_upper : jsval :=
  Sample.StakingIntentConfirmed "0x1234" "0XABC1" "0xbbbb" "0xcccc".

(** No staker account is configured. *)
Definition cfg_without_staker : config :=
  {| stakerAddress := JUndefined;
     stakerPassphrase := JUndefined;
     openSTValueContractAddress := JString "0x5A1e";
     OST_OPENSTUTILITY_ST_PRIME_UUID := JString "0xfeed" |}.

Definition error_response : jsval :=
  JObject [("success", JBool false);
           ("err", JObject [("code", JString "l_ci_1")])].

(** The stages and the claim resolve, with error responses. *)
Definition lib_error_responses : Processor.collaborators :=
  {| Processor.processStaking := fun _ _ _ => Resolved error_response;
     Processor.processMinting := fun _ _ _ => Resolved error_response;
     Processor.registeredTokenProperty :=
       fun _ => Resolved Sample.token_property;
     Processor.claim := fun _ _ _ _ => Resolved error_response |}.

(** The lookup resolves with a response that has no [data]. *)
Definition lib_lookup_without_data : Processor.collaborators :=
  {| Processor.processStaking := fun _ _ _ => Resolved Sample.receipt;
     Processor.processMinting := fun _ _ _ => Resolved Sample.receipt;
     Processor.registeredTokenProperty := fun _ => Resolved error_response;
     Processor.claim := fun _ _ _ _ => Resolved Sample.receipt |}.

(** [balanceOf] is rejected. *)
Definition simple_token_down : Approve.simpleTokenContractInteract :=
  {| Approve.st_balanceOf := fun _ => Rejected (JString "connection lost");
     Approve.st_approve := fun _ _ _ _ _ => Resolved (JString "0x7a11") |}.

(** [balanceOf] resolves with a response that has no [data]. *)
Definition simple_token_without_data : Approve.simpleTokenContractInteract :=
  {| Approve.st_balanceOf := fun _ => Resolved error_response;
     Approve.st_approve := fun _ _ _ _ _ => Resolved (JString "0x7a11") |}.

End SampleEdge.

(* ------------------------------------------------------------------ *)
(** * Proofs *)

(** ** Strings *)

Module JSFacts.
Import JS.

Lemma equalsIgnoreCase_true (x : string) (v : jsval) :
  equalsIgnoreCase x v = true <-> same_ignoring_case x v.
Proof. unfold equalsIgnoreCase, same_ignoring_case. apply String.eqb_eq. Qed.

Lemma equalsIgnoreCase_false (x : string) (v : jsval) :
  equalsIgnoreCase x v = false <-> ~ same_ignoring_case x v.
Proof. unfold equalsIgnoreCase, same_ignoring_case. apply String.eqb_neq. Qed.

Lemma same_ignoring_case_refl (x : string) : same_ignoring_case x (JString x).
Proof. reflexivity. Qed.

Lemma lower_char_idem (c : ascii) : lower_char (lower_char c) = lower_char c.
Proof.
  destruct c as [[] [] [] [] [] [] [] []]; reflexivity.
Qed.

Lemma toLowerCase_idem (s : string) : toLowerCase (toLowerCase s) = toLowerCase s.
Proof.
  induction s as [ | c s IH]; cbn; [ reflexivity | ].
  now rewrite lower_char_idem, IH.
Qed.

Example equalsIgnoreCase_hex :
  equalsIgnoreCase "0xAbC1" (JString "0XABC1") = true.
Proof. reflexivity. Qed.

(** The argument goes through [String] first. *)
Example equalsIgnoreCase_undefined :
  equalsIgnoreCase "Undefined" JUndefined = true /\
  equalsIgnoreCase "0xabc1" JUndefined = false.
Proof. split; reflexivity. Qed.

Example call_equalsIgnoreCase_on_undefined :
  call_equalsIgnoreCase JUndefined (JString "0xabc1") = Abrupt TypeError.
Proof. reflexivity. Qed.

End JSFacts.

(* ------------------------------------------------------------------ *)
(** ** Equations of asynchronous bodies *)

Module AsyncFacts.
Import JS Async.
Local Open Scope js_scope.

Section Laws.
Context {C : Type}.

Lemma bind_ret {A B} (a : A) (f : A -> M C B) : bind (ret a) f = f a.
Proof. unfold bind, ret. destruct (f a); reflexivity. Qed.

Lemma bind_lift_normal {A B} (a : A) (f : A -> M C B) :
  bind (lift (Normal a)) f = f a.
Proof. exact (bind_ret a f). Qed.

Lemma bind_lift_abrupt {A B} (e : exn) (f : A -> M C B) :
  bind (lift (Abrupt e)) f = ([], Abrupt e).
Proof. reflexivity. Qed.

Lemma bind_logger {B} l args (f : unit -> M C B) :
  bind (logger l args) f = emit (Log l args) (f tt).
Proof. unfold bind, logger, emit. destruct (f tt); reflexivity. Qed.

Lemma bind_await_resolved {B} (c : C) v (f : jsval -> M C B) :
  bind (await c (Resolved v)) f = emit (Chain c) (f v).
Proof. unfold bind, await, emit. destruct (f v); reflexivity. Qed.

Lemma bind_await_rejected {B} (c : C) r (f : jsval -> M C B) :
  bind (await c (Rejected r)) f = ([Chain c], Abrupt (Thrown r)).
Proof. reflexivity. Qed.

Lemma await_resolved (c : C) v : await c (Resolved v) = emit (Chain c) (ret v).
Proof. reflexivity. Qed.

Lemma await_rejected (c : C) r :
  await c (Rejected r) = ([Chain c], Abrupt (Thrown r)).
Proof. reflexivity. Qed.

Lemma bind_abrupt {A B} t e (f : A -> M C B) :
  bind ((t, Abrupt e) : M C A) f = (t, Abrupt e).
Proof. reflexivity. Qed.

Lemma bind_assoc {A B D} (m : M C A) (f : A -> M C B) (g : B -> M C D) :
  bind (bind m f) g = bind m (fun x => bind (f x) g).
Proof.
  destruct m as [t [a | e]]; cbn; [ | reflexivity ].
  destruct (f a) as [t1 [b | e1]]; cbn; [ | reflexivity ].
  destruct (g b) as [t2 r2]. now rewrite app_assoc.
Qed.

Lemma bind_emit {A B} e (m : M C A) (f : A -> M C B) :
  bind (emit e m) f = emit e (bind m f).
Proof.
  destruct m as [t [a | x]]; cbn; [ | reflexivity ].
  unfold emit; cbn. destruct (f a); reflexivity.
Qed.

Lemma calls_of_emit_log {A} l args (m : M C A) :
  calls_of (emit (Log l args) m) = calls_of m.
Proof. reflexivity. Qed.

Lemma calls_of_emit_chain {A} c (m : M C A) :
  calls_of (emit (Chain c) m) = c :: calls_of m.
Proof. reflexivity. Qed.

Lemma calls_of_ret {A} (a : A) : calls_of (ret a : M C A) = [].
Proof. reflexivity. Qed.

Lemma calls_of_pair {A} t (r : completion A) :
  calls_of ((t, r) : M C A) = chain_calls t.
Proof. reflexivity. Qed.

Lemma settle_emit {A} e (m : M C A) : settle (emit e m) = settle m.
Proof. reflexivity. Qed.

Lemma settle_ret {A} (a : A) : settle (ret a : M C A) = Fulfilled a.
Proof. reflexivity. Qed.

Lemma settle_abrupt {A} t e : settle ((t, Abrupt e) : M C A) = RejectedWith e.
Proof. reflexivity. Qed.

End Laws.

#[global] Opaque bind.
#[global] Arguments get_prop : simpl never.
#[global] Arguments call_equalsIgnoreCase : simpl never.
#[global] Arguments equalsIgnoreCase : simpl never.
#[global] Arguments lift : simpl never.
#[global] Arguments logger : simpl never.
#[global] Arguments await : simpl never.
#[global] Arguments ret : simpl never.
#[global] Arguments emit : simpl never.
#[global] Arguments calls_of : simpl never.
#[global] Arguments settle : simpl never.

Create Rewrite HintDb run.
#[global] Hint Rewrite
  @bind_assoc @bind_ret @bind_lift_normal @bind_lift_abrupt @bind_logger
  @bind_await_resolved @bind_await_rejected @await_resolved @await_rejected
  @bind_emit @bind_abrupt
  @calls_of_emit_log @calls_of_emit_chain @calls_of_ret @settle_emit
  @settle_ret @settle_abrupt : run.

(** Symbolic execution of a body: normalise with the equations, then split
    on the next value the body inspects. *)
Ltac run := repeat (autorewrite with run; cbn beta iota).

Ltac head_step m :=
  lazymatch m with
  | emit _ ?m' => head_step m'
  | bind (lift ?c) _ => destruct c eqn:?
  | bind (await _ ?o) _ => destruct o eqn:?
  | await _ ?o => destruct o eqn:?
  | (if negb ?b then _ else _) => destruct b eqn:?; cbn [negb]
  | bind (if ?b then _ else _) _ => destruct b eqn:?
  end.

Ltac case_step :=
  match goal with
  | |- context [calls_of ?m] => head_step m
  | |- context [settle ?m] => head_step m
  end; run.

End AsyncFacts.

(* ------------------------------------------------------------------ *)
(** ** The processor *)

Module ProcessorProofs.
Import JS Async Config Processor JSFacts AsyncFacts.
Local Open Scope js_scope.

Lemma get_prop_abrupt (o : jsval) (k : string) (e : exn) :
  get_prop o k = Abrupt e -> e = TypeError.
Proof. destruct o; unfold get_prop; congruence. Qed.

Lemma call_equalsIgnoreCase_abrupt (v w : jsval) (e : exn) :
  call_equalsIgnoreCase v w = Abrupt e -> e = TypeError.
Proof. destruct v; unfold call_equalsIgnoreCase; congruence. Qed.

Lemma call_equalsIgnoreCase_string (x : string) (w : jsval) :
  call_equalsIgnoreCase (JString x) w = Normal (equalsIgnoreCase x w).
Proof. reflexivity. Qed.

(** Every abrupt completion of a read or of the comparison is a
    [TypeError]. *)
Ltac type_errors :=
  repeat match goal with
  | H : get_prop _ _ = Abrupt ?e |- _ =>
      is_var e; pose proof (get_prop_abrupt _ _ _ H); subst e
  | H : call_equalsIgnoreCase _ _ = Abrupt ?e |- _ =>
      is_var e; pose proof (call_equalsIgnoreCase_abrupt _ _ _ H); subst e
  end.

(** Runs the processor up to the comparison of the staker, on an event
    whose fields are known. *)
Ltac open_event H :=
  let rv := fresh "returnValues" in
  destruct H as (rv & ?Hrv & ?Hhash & ?Hstaker & ?Hbeneficiary & ?Huuid);
  unfold processor;
  rewrite Hrv; run; rewrite Hhash; run; rewrite Hstaker; run;
  rewrite Hbeneficiary; run; rewrite Huuid; run.

Lemma processor_run_shape cfg lib eventObj :
  run_shape lib (stakerAddress cfg) (stakerPassphrase cfg)
    (calls_of (processor cfg lib eventObj))
    (settle (processor cfg lib eventObj)).
Proof.
  unfold processor. run.
  repeat case_step; type_errors; rewrite ?calls_of_pair; cbn [chain_calls];
    eauto using run_shape.
Qed.

(** What a stage or the claim resolves with is never looked at: two
    libraries whose answers settle alike, and whose lookups agree, give the
    same run but for the awaited values. *)
Lemma resolved_values_are_discarded cfg lib lib' eventObj :
  (forall a p h,
     settles_alike (processStaking lib a p h) (processStaking lib' a p h)) ->
  (forall a p h,
     settles_alike (processMinting lib a p h) (processMinting lib' a p h)) ->
  (forall u, registeredTokenProperty lib u = registeredTokenProperty lib' u) ->
  (forall m a p b,
     settles_alike (claim lib m a p b) (claim lib' m a p b)) ->
  processor cfg lib eventObj = processor cfg lib' eventObj.
Proof.
  intros Hs Hm Hl Hc.
  unfold processor. run.
  repeat (match goal with
          | |- context [await _ (processStaking lib ?a ?p ?h)] =>
              specialize (Hs a p h);
              destruct (processStaking lib a p h),
                       (processStaking lib' a p h);
              cbn [settles_alike] in Hs; try contradiction; subst
          | |- context [await _ (processMinting lib ?a ?p ?h)] =>
              specialize (Hm a p h);
              destruct (processMinting lib a p h),
                       (processMinting lib' a p h);
              cbn [settles_alike] in Hm; try contradiction; subst
          | |- context [await _ (registeredTokenProperty lib ?u)] =>
              rewrite (Hl u);
              destruct (registeredTokenProperty lib' u)
          | |- context [await _ (claim lib ?m ?a ?p ?b)] =>
              specialize (Hc m a p b);
              destruct (claim lib m a p b), (claim lib' m a p b);
              cbn [settles_alike] in Hc; try contradiction; subst
          | |- ?m = _ => head_step m
          end; run);
    reflexivity.
Qed.

(** The run of an authorised event whose uuid is the native one. *)
Lemma native_branch cfg lib eventObj h s b id account v1 v2 :
  carries eventObj h s b (JString id) ->
  stakerAddress cfg = JString account ->
  same_ignoring_case account s ->
  same_ignoring_case id (OST_OPENSTUTILITY_ST_PRIME_UUID cfg) ->
  processStaking lib (stakerAddress cfg) (stakerPassphrase cfg) h
    = Resolved v1 ->
  processMinting lib (stakerAddress cfg) (stakerPassphrase cfg) h
    = Resolved v2 ->
  calls_of (processor cfg lib eventObj)
    = [ProcessStaking (stakerAddress cfg) (stakerPassphrase cfg) h;
       ProcessMinting (stakerAddress cfg) (stakerPassphrase cfg) h] /\
  settle (processor cfg lib eventObj) = Fulfilled (success_response h).
Proof.
  intros Hc Hacc Hs Hid H1 H2.
  apply equalsIgnoreCase_true in Hs, Hid.
  open_event Hc.
  rewrite H1, H2. rewrite Hacc.
  rewrite !call_equalsIgnoreCase_string, Hs, Hid. cbn [negb]. run.
  split; reflexivity.
Qed.

(** C2.  An event whose staker differs, letter case aside, from the
    configured staker account makes the processor return the error response
    [e_ic_samp_1] at once: the run performs no effect at all, so none of
    [processStaking], [processMinting], [registeredTokenProperty] and
    [claim] is called. *)
Theorem unauthorized_staker_makes_no_call
  cfg lib eventObj h s b u account :
  carries eventObj h s b u ->
  stakerAddress cfg = JString account ->
  ~ same_ignoring_case account s ->
  processor cfg lib eventObj = ([], Normal unauthorized_response) /\
  calls_of (processor cfg lib eventObj) = [].
Proof.
  intros Hc Hacc Hs.
  apply equalsIgnoreCase_false in Hs.
  assert (processor cfg lib eventObj = ([], Normal unauthorized_response))
    as ->; [ | split; reflexivity ].
  open_event Hc.
  rewrite Hacc, call_equalsIgnoreCase_string, Hs. cbn [negb]. run.
  reflexivity.
Qed.

Lemma unauthorized_staker_makes_no_call_witness :
  processor Sample.cfg Sample.lib_ok Sample.foreign_event
    = ([], Normal unauthorized_response) /\
  calls_of (processor Sample.cfg Sample.lib_ok Sample.foreign_event) = [].
Proof.
  apply (unauthorized_staker_makes_no_call Sample.cfg Sample.lib_ok
           Sample.foreign_event (JString "0x1234") (JString "0xBBB2")
           (JString "0xbbbb") (JString "0xcccc") "0xAbC1").
  - eexists; repeat split; reflexivity.
  - reflexivity.
  - unfold same_ignoring_case. vm_compute. discriminate.
Defined.

(** C5.  When the uuid of the event is the configured native identifier
    and both [processStaking] and [processMinting] resolve, the processor
    makes exactly these two calls (no [registeredTokenProperty], no
    [claim]) and fulfils with the success response carrying the staking
    intent hash of the event. *)
Theorem native_uuid_succeeds_without_claim
  cfg lib eventObj h s b id account v1 v2 :
  carries eventObj h s b (JString id) ->
  stakerAddress cfg = JString account ->
  same_ignoring_case account s ->
  OST_OPENSTUTILITY_ST_PRIME_UUID cfg = JString id ->
  processStaking lib (stakerAddress cfg) (stakerPassphrase cfg) h
    = Resolved v1 ->
  processMinting lib (stakerAddress cfg) (stakerPassphrase cfg) h
    = Resolved v2 ->
  calls_of (processor cfg lib eventObj)
    = [ProcessStaking (stakerAddress cfg) (stakerPassphrase cfg) h;
       ProcessMinting (stakerAddress cfg) (stakerPassphrase cfg) h] /\
  settle (processor cfg lib eventObj)
    = Fulfilled (ResponseSuccess (JObject [("staking_intent_hash", h)])).
Proof.
  intros Hc Hacc Hs Hid H1 H2.
  apply (native_branch cfg lib eventObj h s b id account v1 v2); auto.
  rewrite Hid. apply same_ignoring_case_refl.
Qed.

Lemma native_uuid_succeeds_without_claim_witness :
  let cfg := {| stakerAddress := JString "0xAbC1";
                stakerPassphrase := JString "passphrase";
                openSTValueContractAddress := JString "0x5A1e";
                OST_OPENSTUTILITY_ST_PRIME_UUID := JString "0xFEED" |} in
  calls_of (processor cfg Sample.lib_ok Sample.native_event)
    = [ProcessStaking (JString "0xAbC1") (JString "passphrase")
         (JString "0x1234");
       ProcessMinting (JString "0xAbC1") (JString "passphrase")
         (JString "0x1234")] /\
  settle (processor cfg Sample.lib_ok Sample.native_event)
    = Fulfilled
        (ResponseSuccess (JObject [("staking_intent_hash", JString "0x1234")])).
Proof.
  intro cfg.
  apply (native_uuid_succeeds_without_claim cfg Sample.lib_ok
           Sample.native_event (JString "0x1234") (JString "0xABC1")
           (JString "0xbbbb") "0xFEED" "0xAbC1" Sample.receipt Sample.receipt).
  - eexists; repeat split; reflexivity.
  - reflexivity.
  - vm_compute. reflexivity.
  - reflexivity.
  - reflexivity.
  - reflexivity.
Defined.

(** C9.  [equalsIgnoreCase] lower-cases the receiver and the argument,
    the argument after [String] has made a string of it; so an event whose
    uuid differs from the native identifier only in the case of its
    letters runs the native branch: after the two stages nothing is looked
    up and nothing is claimed. *)
Theorem uuid_comparison_ignores_case
  cfg lib eventObj h s b id account v1 v2 :
  carries eventObj h s b (JString id) ->
  stakerAddress cfg = JString account ->
  same_ignoring_case account s ->
  toLowerCase id
    = toLowerCase (String_ (OST_OPENSTUTILITY_ST_PRIME_UUID cfg)) ->
  processStaking lib (stakerAddress cfg) (stakerPassphrase cfg) h
    = Resolved v1 ->
  processMinting lib (stakerAddress cfg) (stakerPassphrase cfg) h
    = Resolved v2 ->
  (forall x v,
     equalsIgnoreCase x v
       = String.eqb (toLowerCase x) (toLowerCase (String_ v))) /\
  calls_of (processor cfg lib eventObj)
    = [ProcessStaking (stakerAddress cfg) (stakerPassphrase cfg) h;
       ProcessMinting (stakerAddress cfg) (stakerPassphrase cfg) h] /\
  settle (processor cfg lib eventObj) = Fulfilled (success_response h).
Proof.
  intros Hc Hacc Hs Hid H1 H2.
  split; [ reflexivity | ].
  now apply (native_branch cfg lib eventObj h s b id account v1 v2).
Qed.

Lemma uuid_comparison_ignores_case_witness :
  (forall x v,
     equalsIgnoreCase x v
       = String.eqb (toLowerCase x) (toLowerCase (String_ v))) /\
  calls_of (processor Sample.cfg Sample.lib_ok Sample.native_event)
    = [ProcessStaking (JString "0xAbC1") (JString "passphrase")
         (JString "0x1234");
       ProcessMinting (JString "0xAbC1") (JString "passphrase")
         (JString "0x1234")] /\
  settle (processor Sample.cfg Sample.lib_ok Sample.native_event)
    = Fulfilled (success_response (JString "0x1234")).
Proof.
  apply (uuid_comparison_ignores_case Sample.cfg Sample.lib_ok
           Sample.native_event (JString "0x1234") (JString "0xABC1")
           (JString "0xbbbb") "0xFEED" "0xAbC1" Sample.receipt Sample.receipt).
  - eexists; repeat split; reflexivity.
  - reflexivity.
  - vm_compute. reflexivity.
  - vm_compute. reflexivity.
  - reflexivity.
  - reflexivity.
Defined.

(** C4.  When the uuid of the event is not the native identifier (the
    comparison being the one of C9) and both stages resolve, the processor
    looks the uuid up with [registeredTokenProperty], builds the branded
    token from the [erc20Address] of the answer and calls its [claim] once,
    with the beneficiary of the event: these four calls, in this order, are
    all the calls of the run. *)
Theorem branded_uuid_claims_once
  cfg lib eventObj h s b id account v1 v2 v3 erc20 :
  carries eventObj h s b (JString id) ->
  stakerAddress cfg = JString account ->
  same_ignoring_case account s ->
  ~ same_ignoring_case id (OST_OPENSTUTILITY_ST_PRIME_UUID cfg) ->
  processStaking lib (stakerAddress cfg) (stakerPassphrase cfg) h
    = Resolved v1 ->
  processMinting lib (stakerAddress cfg) (stakerPassphrase cfg) h
    = Resolved v2 ->
  registeredTokenProperty lib (JString id) = Resolved v3 ->
  has_erc20Address v3 erc20 ->
  calls_of (processor cfg lib eventObj)
    = [ProcessStaking (stakerAddress cfg) (stakerPassphrase cfg) h;
       ProcessMinting (stakerAddress cfg) (stakerPassphrase cfg) h;
       RegisteredTokenProperty (JString id);
       Claim (JObject [("ERC20", erc20)]) (stakerAddress cfg)
         (stakerPassphrase cfg) b].
Proof.
  intros Hc Hacc Hs Hid H1 H2 H3 (data & Hdata & Herc).
  apply equalsIgnoreCase_true in Hs. apply equalsIgnoreCase_false in Hid.
  open_event Hc.
  rewrite H1, H2. rewrite Hacc in *.
  rewrite !call_equalsIgnoreCase_string, Hs, Hid. cbn [negb]. run.
  rewrite H3. run. rewrite Hdata. run. rewrite Herc. run.
  destruct (claim lib (JObject [("ERC20", erc20)]) (JString account)
              (stakerPassphrase cfg) b); run; reflexivity.
Qed.

Lemma branded_uuid_claims_once_witness :
  calls_of (processor Sample.cfg Sample.lib_ok Sample.branded_event)
    = [ProcessStaking (JString "0xAbC1") (JString "passphrase")
         (JString "0x1234");
       ProcessMinting (JString "0xAbC1") (JString "passphrase")
         (JString "0x1234");
       RegisteredTokenProperty (JString "0xcccc");
       Claim (JObject [("ERC20", JString "0xdddd")]) (JString "0xAbC1")
         (JString "passphrase") (JString "0xbbbb")].
Proof.
  apply (branded_uuid_claims_once Sample.cfg Sample.lib_ok
           Sample.branded_event (JString "0x1234") (JString "0xabc1")
           (JString "0xbbbb") "0xcccc" "0xAbC1" Sample.receipt Sample.receipt
           Sample.token_property (JString "0xdddd")).
  - eexists; repeat split; reflexivity.
  - reflexivity.
  - vm_compute. reflexivity.
  - unfold same_ignoring_case. vm_compute. discriminate.
  - reflexivity.
  - reflexivity.
  - reflexivity.
  - eexists; split; reflexivity.
Defined.

(** A list of at most four calls split around one of them. *)
Ltac split_calls H :=
  match type of H with
  | _ = ?pre ++ _ :: _ =>
      destruct pre as [ | ? [ | ? [ | ? [ | ? pre]]]];
      cbn [app] in H; try discriminate H;
      try (destruct pre; discriminate H);
      injection H; intros; subst
  end.

Lemma run_shape_ordered lib a p cs pr :
  run_shape lib a p cs pr ->
  exists h u m b rest,
    cs ++ rest
      = [ProcessStaking a p h; ProcessMinting a p h;
         RegisteredTokenProperty u; Claim m a p b].
Proof.
  intros H.
  inversion H; subst; do 5 eexists; cbn [app]; reflexivity.
  Unshelve. all: exact JUndefined.
Qed.

Lemma run_shape_short_circuit lib a p cs pr pre c post :
  run_shape lib a p cs pr ->
  cs = pre ++ c :: post ->
  (post <> [] -> exists v, answer lib c = Resolved v) /\
  (forall r, answer lib c = Rejected r -> post = []).
Proof.
  intros H E. rewrite E in H. clear E cs.
  inversion H;
    match goal with
    | Heq : _ = pre ++ c :: post |- _ => split_calls Heq
    end;
    cbn [answer]; split; intros; eauto; congruence.
Qed.




(** Uses, for each call of a run, the assumption that every call of the run
    succeeded. *)
Ltac use_succeeded Hall :=
  apply Forall_forall in Hall;
  repeat match goal with
  | H : Forall _ (_ :: _) |- _ => inversion H; subst; clear H
  | H : succeeded _ _ |- _ =>
      let v := fresh "v" in
      let Hv := fresh "Hv" in
      let Hx := fresh "Hx" in
      destruct H as (v & Hv & Hx); cbn [answer] in Hv
  | H : exists a, has_erc20Address _ a |- _ =>
      let a := fresh "a" in
      let d := fresh "d" in
      destruct H as (a & d & ? & ?)
  end.

Ltac pick_call Hin :=
  cbn [In] in Hin;
  repeat match type of Hin with
  | _ \/ _ => destruct Hin as [<- | Hin]
  | False => contradiction
  end.

(** C1, as the code has it.  The processor catches nothing.  On an event
    with readable fields, a string uuid and a string staker account in the
    configuration: if every call the run makes succeeds (the lookup with
    an answer that has [.data.erc20Address]), the promise of the processor
    is fulfilled, with the error response [e_ic_samp_1] or with the success
    response carrying the staking intent hash; and if a call the run makes
    is rejected, the promise of the processor is rejected with the reason
    of that call. *)
Theorem processor_fulfils_unless_a_call_rejects
  cfg lib eventObj h s b id account :
  carries eventObj h s b (JString id) ->
  stakerAddress cfg = JString account ->
  ((forall c, In c (calls_of (processor cfg lib eventObj)) ->
      succeeded lib c) ->
   settle (processor cfg lib eventObj) = Fulfilled unauthorized_response \/
   settle (processor cfg lib eventObj) = Fulfilled (success_response h)) /\
  (forall c reason,
     In c (calls_of (processor cfg lib eventObj)) ->
     answer lib c = Rejected reason ->
     settle (processor cfg lib eventObj) = RejectedWith (Thrown reason)).
Proof.
  intros Hc Hacc.
  open_event Hc. rewrite Hacc.
  repeat (rewrite ?call_equalsIgnoreCase_string; run; case_step).
  all: rewrite ?calls_of_pair; cbn [chain_calls]; type_errors.
  all: split;
    [ intros Hall; use_succeeded Hall;
      first [ left; reflexivity | right; reflexivity | congruence ]
    | intros c0 why Hin Hans; pick_call Hin; cbn [answer] in Hans;
      congruence ].
Qed.

Lemma processor_fulfils_unless_a_call_rejects_witness :
  settle (processor Sample.cfg Sample.lib_ok Sample.branded_event)
    = Fulfilled (success_response (JString "0x1234")) /\
  settle (processor Sample.cfg Sample.lib_stage1_rejects Sample.branded_event)
    = RejectedWith (Thrown (JString "processStaking reverted")).
Proof.
  split.
  - destruct (processor_fulfils_unless_a_call_rejects Sample.cfg Sample.lib_ok
                Sample.branded_event (JString "0x1234") (JString "0xabc1")
                (JString "0xbbbb") "0xcccc" "0xAbC1") as [H _].
    + eexists; repeat split; reflexivity.
    + reflexivity.
    + destruct H as [H | H].
      * intros c Hin. vm_compute in Hin.
        destruct Hin as [<- | [<- | [<- | [<- | []]]]];
          (eexists; split; [ reflexivity | ]);
          try exact I.
        exists (JString "0xdddd"). eexists; split; reflexivity.
      * vm_compute in H. discriminate H.
      * exact H.
  - destruct (processor_fulfils_unless_a_call_rejects Sample.cfg
                Sample.lib_stage1_rejects
                Sample.branded_event (JString "0x1234") (JString "0xabc1")
                (JString "0xbbbb") "0xcccc" "0xAbC1") as [_ H].
    + eexists; repeat split; reflexivity.
    + reflexivity.
    + apply (H (ProcessStaking (JString "0xAbC1") (JString "passphrase")
                  (JString "0x1234"))).
      * vm_compute. left. reflexivity.
      * reflexivity.
Defined.

(** C1 as stated fails: when [processStaking] is rejected, the promise of
    the processor is rejected too, with the same reason, and no response is
    produced. *)
Lemma stage1_rejection_escapes_processor :
  settle (processor Sample.cfg Sample.lib_stage1_rejects Sample.branded_event)
    = RejectedWith (Thrown (JString "processStaking reverted")) /\
  ~ (exists r : response,
       settle (processor Sample.cfg Sample.lib_stage1_rejects
                 Sample.branded_event) = Fulfilled r).
Proof.
  assert (settle (processor Sample.cfg Sample.lib_stage1_rejects
                    Sample.branded_event)
          = RejectedWith (Thrown (JString "processStaking reverted"))) as E
    by (vm_compute; reflexivity).
  split; [ exact E | ].
  intros [r Hr]. rewrite E in Hr. discriminate Hr.
Qed.

End ProcessorProofs.

(* ------------------------------------------------------------------ *)
(** ** The approval service *)

Module ApproveProofs.
Import JS Async Config Approve AsyncFacts.
Local Open Scope js_scope.

(** C10.  Every call an invocation of the service makes is [balanceOf]
    for the staker account or the [approve] of exactly the balance that
    [balanceOf] answered, from the staker account to the openSTValue
    contract, with the flag that asks not to wait for the transaction to be
    mined.  When [balanceOf] answers with a balance, the invocation makes
    these two calls, in this order, and its promise is the one [approve]
    returned. *)
Theorem approve_amount_is_the_balance cfg lib :
  (forall c,
     In c (calls_of (approveOpenStValueContract cfg lib)) ->
     c = BalanceOf (stakerAddress cfg) \/
     exists result balance,
       st_balanceOf lib (stakerAddress cfg) = Resolved result /\
       has_balance result balance /\
       c = ApproveCall (stakerAddress cfg) (stakerPassphrase cfg)
             (openSTValueContractAddress cfg) (BigNumber balance)
             (JBool true)) /\
  (forall result balance,
     st_balanceOf lib (stakerAddress cfg) = Resolved result ->
     has_balance result balance ->
     calls_of (approveOpenStValueContract cfg lib)
       = [BalanceOf (stakerAddress cfg);
          ApproveCall (stakerAddress cfg) (stakerPassphrase cfg)
            (openSTValueContractAddress cfg) (BigNumber balance)
            (JBool true)] /\
     settle (approveOpenStValueContract cfg lib)
       = match st_approve lib (stakerAddress cfg) (stakerPassphrase cfg)
                 (openSTValueContractAddress cfg) (BigNumber balance)
                 (JBool true) with
         | Resolved v => Fulfilled v
         | Rejected r => RejectedWith (Thrown r)
         end).
Proof.
  split.
  - unfold approveOpenStValueContract, getSTBalance, approve. run.
    repeat case_step; rewrite ?calls_of_pair; cbn [chain_calls];
      intros c Hin; cbn [In] in Hin;
      repeat match type of Hin with
      | _ \/ _ => destruct Hin as [<- | Hin]
      | False => contradiction
      end;
      first [ left; reflexivity
            | right; do 2 eexists; split; [ reflexivity | ];
              split; [ eexists; split; eassumption | reflexivity ] ].
  - intros result balance Hbal (data & Hdata & Hbalance).
    unfold approveOpenStValueContract, getSTBalance, approve.
    run. rewrite Hbal. run. rewrite Hdata. run. rewrite Hbalance. run.
    destruct (st_approve lib (stakerAddress cfg) (stakerPassphrase cfg)
                (openSTValueContractAddress cfg) (BigNumber balance)
                (JBool true)); split; reflexivity.
Qed.

Lemma approve_amount_is_the_balance_witness :
  calls_of (approveOpenStValueContract Sample.cfg Sample.simple_token)
    = [BalanceOf (JString "0xAbC1");
       ApproveCall (JString "0xAbC1") (JString "passphrase")
         (JString "0x5A1e") (BigNumber (JString "1000")) (JBool true)] /\
  settle (approveOpenStValueContract Sample.cfg Sample.simple_token)
    = Fulfilled (JString "0x7a11").
Proof.
  apply (proj2 (approve_amount_is_the_balance Sample.cfg Sample.simple_token)
           (JObject [("data", JObject [("balance", JString "1000")])])
           (JString "1000")).
  - reflexivity.
  - eexists; split; reflexivity.
Defined.

End ApproveProofs.

(* ------------------------------------------------------------------ *)
(** ** The event subscription *)

Module SubscriptionProofs.
Import JS Async Subscription.

Section Adapter.
Variable queue : Type.
Variable addEditEventInQueue : jsval -> queue -> queue.

Notation world := (world queue).
Notation subscription w := (fst (bindEvents queue addEditEventInQueue w)).
Notation onEvent := (onEvent queue addEditEventInQueue).
Notation onEventSubscriptionError := (onEventSubscriptionError queue).

Lemma notify_data (w0 w : world) eventObj :
  notify queue (subscription w0) (NData eventObj) w = onEvent eventObj w.
Proof. reflexivity. Qed.

Lemma notify_changed (w0 w : world) eventObj :
  notify queue (subscription w0) (NChanged eventObj) w = onEvent eventObj w.
Proof. reflexivity. Qed.

Lemma notify_error (w0 w : world) error :
  notify queue (subscription w0) (NError error) w
    = onEventSubscriptionError error w.
Proof. reflexivity. Qed.

(** The queue after a notification depends on the queue before it only. *)
Lemma notify_queue (w0 w1 w2 : world) n :
  eventQueue w1 = eventQueue w2 ->
  eventQueue (notify queue (subscription w0) n w1)
    = eventQueue (notify queue (subscription w0) n w2).
Proof.
  intros E. destruct n.
  - rewrite !notify_error. exact E.
  - rewrite !notify_data. cbn. now rewrite E.
  - rewrite !notify_changed. cbn. now rewrite E.
Qed.

Lemma deliver_queue (w0 : world) ns : forall w1 w2 : world,
  eventQueue w1 = eventQueue w2 ->
  eventQueue (deliver queue (subscription w0) ns w1)
    = eventQueue (deliver queue (subscription w0) ns w2).
Proof.
  induction ns as [ | n ns IH]; intros w1 w2 E; [ exact E | ].
  cbn [deliver]. apply IH, notify_queue, E.
Qed.

(** C7.  The subscription made by [bindEvents] registers [onEvent] for
    ['data'] and for ['changed']: a reorganisation notice is handled as the
    data notice of the same event object, by the one call of
    [addEditEventInQueue], and a stream of notifications leaves the same
    world as the stream in which every ['changed'] is a ['data']. *)
Theorem changed_is_handled_as_data (w0 : world) :
  (forall eventObj w,
     notify queue (subscription w0) (NChanged eventObj) w
       = notify queue (subscription w0) (NData eventObj) w) /\
  (forall eventObj w,
     notify queue (subscription w0) (NChanged eventObj) w
       = {| eventQueue := addEditEventInQueue eventObj (eventQueue w);
            console := console w |}) /\
  (forall ns w,
     deliver queue (subscription w0) (map as_data ns) w
       = deliver queue (subscription w0) ns w).
Proof.
  split; [ | split ].
  - intros eventObj w. now rewrite notify_changed, notify_data.
  - intros eventObj w. now rewrite notify_changed.
  - induction ns as [ | n ns IH]; intros w; [ reflexivity | ].
    cbn [map deliver]. rewrite IH. f_equal.
    destruct n; reflexivity.
Qed.

(** C8.  A subscription error writes two lines to the console and does
    nothing else: the queue is the one before the error, the handler
    returns, and the notifications that follow are handled as they would
    be without it: after any stream the queue is the one the stream leaves
    with its errors removed. *)
Theorem subscription_error_only_logs (w0 : world) :
  (forall error w,
     notify queue (subscription w0) (NError error) w
       = {| eventQueue := eventQueue w;
            console := console w ++
              [(LLog, [JString "onEventSubscriptionError triggered"]);
               (LError, [error])] |}) /\
  (forall ns w,
     eventQueue (deliver queue (subscription w0) ns w)
       = eventQueue (deliver queue (subscription w0) (without_errors ns) w)).
Proof.
  split.
  - intros error w. rewrite notify_error.
    unfold onEventSubscriptionError, logger_write. cbn.
    now rewrite <- app_assoc.
  - induction ns as [ | n ns IH]; intros w; [ reflexivity | ].
    destruct n as [error | eventObj | eventObj].
    + cbn [deliver]. change (without_errors (NError error :: ns))
        with (without_errors ns).
      rewrite <- IH. apply deliver_queue. now rewrite notify_error.
    + change (without_errors (NData eventObj :: ns))
        with (NData eventObj :: without_errors ns).
      cbn [deliver]. apply IH.
    + change (without_errors (NChanged eventObj :: ns))
        with (NChanged eventObj :: without_errors ns).
      cbn [deliver]. apply IH.
Qed.

End Adapter.

End SubscriptionProofs.

(* ------------------------------------------------------------------ *)
(** ** The delay queue *)

Module DelayQueueProofs.
Import JS DelayQueue.

Lemma live_for_set_state key s e :
  live e = true ->
  match s with Pending | Due | Processing => True | _ => False end ->
  live_for key (set_state s e) = live_for key e.
Proof.
  unfold live_for, live. cbn. intros -> Hs.
  destruct s; try contradiction; reflexivity.
Qed.

Lemma is_state_live s e :
  is_state s e = true ->
  match s with Pending | Due | Processing => True | _ => False end ->
  live e = true.
Proof.
  unfold is_state, live.
  destruct s, (entry_state e); intros; try discriminate; try contradiction;
    reflexivity.
Qed.

Lemma filter_map_length {A} (p : A -> bool) (f : A -> A) (l : list A) :
  (forall x, p (f x) = p x) ->
  length (filter p (map f l)) = length (filter p l).
Proof.
  intros Hf. induction l as [ | x l IH]; cbn; [ reflexivity | ].
  rewrite Hf. destruct (p x); cbn; now rewrite IH.
Qed.

Lemma existsb_map_same {A} (p : A -> bool) (f : A -> A) (l : list A) :
  (forall x, p (f x) = p x) ->
  existsb p (map f l) = existsb p l.
Proof.
  intros Hf. induction l as [ | x l IH]; cbn; [ reflexivity | ].
  now rewrite Hf, IH.
Qed.

Lemma filter_filter_length {A} (p q : A -> bool) (l : list A) :
  length (filter p (filter q l)) <= length (filter p l).
Proof.
  induction l as [ | x l IH]; cbn; [ lia | ].
  destruct (q x), (p x) eqn:Hp; cbn; rewrite ?Hp; cbn; lia.
Qed.

Lemma existsb_false_filter {A} (p : A -> bool) (l : list A) :
  existsb p l = false -> filter p l = [].
Proof.
  induction l as [ | x l IH]; cbn; [ reflexivity | ].
  destruct (p x); cbn; [ discriminate | exact IH ].
Qed.

Lemma all_dead_filter key (l : list QueuedEvent) :
  Forall (fun e => live e = false) l -> filter (live_for key) l = [].
Proof.
  induction 1 as [ | e l He _ IH]; cbn; [ reflexivity | ].
  unfold live_for at 1. rewrite He, andb_false_r. exact IH.
Qed.

(** Claiming changes one entry from [Due] to [Processing]: the live entries
    of every key stay what they were, up to that state. *)
Lemma claim_oldest_live key (l : list QueuedEvent) :
  length (filter (live_for key) (snd (claim_oldest l)))
    = length (filter (live_for key) l) /\
  existsb (live_for key) (snd (claim_oldest l)) = existsb (live_for key) l.
Proof.
  induction l as [ | e l [IH1 IH2]]; cbn [claim_oldest]; [ split; reflexivity | ].
  destruct (is_state Due e) eqn:Hdue.
  - cbn [snd filter existsb].
    rewrite (live_for_set_state key Processing e (is_state_live Due e Hdue I) I).
    destruct (live_for key e); split; reflexivity.
  - destruct (claim_oldest l) as [found rest]. cbn [snd filter existsb] in *.
    rewrite IH2. destruct (live_for key e); cbn [length]; split; auto.
Qed.

Lemma tick_entry_live key delay h e :
  live_for key
    (if is_state Pending e && (delay <=? h - observedHeight e)%Z
     then set_state Due e else e)
  = live_for key e.
Proof.
  destruct (is_state Pending e) eqn:Hp; cbn [andb]; [ | reflexivity ].
  destruct (delay <=? h - observedHeight e)%Z; [ | reflexivity ].
  apply live_for_set_state; [ | exact I ].
  exact (is_state_live Pending e Hp I).
Qed.

Section Queue.
Variable identityKey_of : jsval -> string.

Notation enqueue := (enqueue identityKey_of).
Notation step := (step identityKey_of).
Notation run := (run identityKey_of).

Lemma well_formed_empty delay : well_formed (empty delay).
Proof. split; [ intros key; cbn; lia | constructor ]. Qed.

Lemma well_formed_enqueue h event q :
  well_formed q -> well_formed (enqueue h event q).
Proof.
  intros [Hactive Hfinished]. unfold DelayQueue.enqueue.
  destruct (existsb (live_for (identityKey_of event)) (active q)) eqn:Hlive;
    [ split; assumption | ].
  split; [ | exact Hfinished ].
  intros key. cbn [active]. rewrite filter_app, length_app.
  cbn [filter]. unfold live_for at 2. cbn [identityKey live entry_state].
  destruct (String.eqb_spec (identityKey_of event) key) as [<- | Hne].
  - rewrite (existsb_false_filter _ _ Hlive). cbn. lia.
  - cbn. specialize (Hactive key). lia.
Qed.

Lemma well_formed_tick h q : well_formed q -> well_formed (tick h q).
Proof.
  intros [Hactive Hfinished]. split; [ | exact Hfinished ].
  intros key. cbn [tick active].
  rewrite filter_map_length; [ apply Hactive | ].
  intros e. apply tick_entry_live.
Qed.

Lemma well_formed_claim q : well_formed q -> well_formed (snd (claim q)).
Proof.
  intros [Hactive Hfinished]. unfold claim.
  pose proof (fun key => proj1 (claim_oldest_live key (active q))) as Hc.
  destruct (claim_oldest (active q)) as [found rest]. cbn [snd] in *.
  split; [ | exact Hfinished ].
  intros key. cbn [active]. rewrite Hc. apply Hactive.
Qed.

Lemma well_formed_complete key result q :
  well_formed q -> well_formed (complete key result q).
Proof.
  intros [Hactive Hfinished]. split.
  - intros k. cbn [complete active].
    etransitivity; [ apply filter_filter_length | apply Hactive ].
  - cbn [complete finished]. apply Forall_app. split; [ exact Hfinished | ].
    apply Forall_forall. intros e He. apply in_map_iff in He.
    destruct He as (e' & <- & _). destruct result; reflexivity.
Qed.

Lemma well_formed_step o q : well_formed q -> well_formed (step o q).
Proof.
  destruct o; cbn [DelayQueue.step].
  - apply well_formed_enqueue.
  - apply well_formed_tick.
  - apply well_formed_claim.
  - apply well_formed_complete.
Qed.

Lemma well_formed_run ops : forall q, well_formed q -> well_formed (run ops q).
Proof.
  induction ops as [ | o ops IH]; intros q Hq; [ exact Hq | ].
  cbn [DelayQueue.run]. apply IH, well_formed_step, Hq.
Qed.

Lemma well_formed_live_entries key q :
  well_formed q -> length (live_entries key q) <= 1.
Proof.
  intros [Hactive Hfinished]. unfold live_entries.
  rewrite filter_app, length_app, (all_dead_filter key _ Hfinished).
  cbn. specialize (Hactive key). lia.
Qed.

(** A live entry of a key stays in the active index until it is
    completed. *)
Lemma step_keeps_live key o q :
  completes_key key o = false ->
  existsb (live_for key) (active q) = true ->
  existsb (live_for key) (active (step o q)) = true.
Proof.
  intros Ho Hlive. destruct o as [h event | h | | k result];
    cbn [DelayQueue.step].
  - unfold DelayQueue.enqueue.
    destruct (existsb (live_for (identityKey_of event)) (active q));
      [ exact Hlive | ].
    cbn [active]. rewrite existsb_app, Hlive. reflexivity.
  - cbn [tick active]. rewrite existsb_map_same; [ exact Hlive | ].
    intros e. apply tick_entry_live.
  - unfold claim.
    pose proof (proj2 (claim_oldest_live key (active q))) as Hc.
    destruct (claim_oldest (active q)) as [found rest]. cbn [snd active] in *.
    now rewrite Hc.
  - cbn [complete active]. cbn [completes_key] in Ho.
    apply existsb_exists in Hlive. destruct Hlive as (e & Hin & He).
    apply existsb_exists. exists e. split; [ | exact He ].
    apply filter_In. split; [ exact Hin | ].
    unfold live_for in He. apply andb_true_iff in He. destruct He as [Hk _].
    apply String.eqb_eq in Hk. rewrite Hk.
    rewrite String.eqb_sym, Ho. reflexivity.
Qed.

Lemma run_keeps_live key ops : forall q,
  forallb (fun o => negb (completes_key key o)) ops = true ->
  existsb (live_for key) (active q) = true ->
  existsb (live_for key) (active (run ops q)) = true.
Proof.
  induction ops as [ | o ops IH]; intros q Hops Hlive; [ exact Hlive | ].
  cbn [forallb] in Hops. apply andb_true_iff in Hops.
  destruct Hops as [Ho Hops]. apply negb_true_iff in Ho.
  cbn [DelayQueue.run]. apply IH; [ exact Hops | ].
  now apply step_keeps_live.
Qed.

Lemma enqueue_live h event q :
  existsb (live_for (identityKey_of event)) (active (enqueue h event q)) = true.
Proof.
  unfold DelayQueue.enqueue.
  destruct (existsb (live_for (identityKey_of event)) (active q)) eqn:Hlive;
    [ exact Hlive | ].
  cbn [active]. rewrite existsb_app. cbn [existsb].
  unfold live_for at 2. cbn [identityKey live entry_state].
  rewrite String.eqb_refl. cbn. now rewrite orb_true_r.
Qed.

Lemma enqueue_noop h event q :
  existsb (live_for (identityKey_of event)) (active q) = true ->
  enqueue h event q = q.
Proof. intros Hlive. unfold DelayQueue.enqueue. now rewrite Hlive. Qed.

(** C6.  Whatever operations the queue has gone through since it was
    created, it holds at most one live entry for a key; enqueueing an event
    whose key has a live entry returns the queue as it is; and an event
    that was enqueued and not completed since is not enqueued again,
    whatever enqueue, tick and claim operations happened in between. *)
Theorem at_most_one_live_entry_per_key delay ops :
  let q := run ops (empty delay) in
  (forall key, length (live_entries key q) <= 1) /\
  (forall h event,
     live_entries (identityKey_of event) q <> [] ->
     enqueue h event q = q) /\
  (forall h h' event later,
     forallb (fun o => negb (completes_key (identityKey_of event) o)) later
       = true ->
     enqueue h' event (run later (enqueue h event q))
       = run later (enqueue h event q)).
Proof.
  intros q.
  assert (well_formed q) as Hq
    by (apply well_formed_run, well_formed_empty).
  split; [ | split ].
  - intros key. now apply well_formed_live_entries.
  - intros h event Hlive. apply enqueue_noop.
    destruct (existsb (live_for (identityKey_of event)) (active q)) eqn:E;
      [ reflexivity | exfalso; apply Hlive ].
    unfold live_entries. rewrite filter_app.
    rewrite (existsb_false_filter _ _ E).
    now rewrite (all_dead_filter _ _ (proj2 Hq)).
  - intros h h' event later Hlater. apply enqueue_noop.
    apply run_keeps_live; [ exact Hlater | apply enqueue_live ].
Qed.

End Queue.

Lemma at_most_one_live_entry_per_key_witness :
  let seen :=
    [Enqueue 100 Sample.branded_event; Tick 106; Claim] in
  enqueue Sample.intent_hash_key 107 Sample.branded_event
    (run Sample.intent_hash_key seen (empty 6))
  = run Sample.intent_hash_key seen (empty 6) /\
  enqueue Sample.intent_hash_key 109 Sample.native_event
    (run Sample.intent_hash_key [Tick 108; Claim]
       (enqueue Sample.intent_hash_key 107 Sample.native_event
          (run Sample.intent_hash_key seen (empty 6))))
  = run Sample.intent_hash_key [Tick 108; Claim]
      (enqueue Sample.intent_hash_key 107 Sample.native_event
         (run Sample.intent_hash_key seen (empty 6))).
Proof.
  intros seen.
  destruct (at_most_one_live_entry_per_key Sample.intent_hash_key 6 seen)
    as (_ & Hnoop & Hlater).
  split.
  - apply Hnoop. vm_compute. discriminate.
  - apply (Hlater 107%Z 109%Z Sample.native_event [Tick 108; Claim]).
    reflexivity.
Defined.

End DelayQueueProofs.

(* ------------------------------------------------------------------ *)
(** ** [equalsIgnoreCase] as a relation *)

Module ComparisonProofs.
Import JS JSFacts.

(** X1.  On strings [equalsIgnoreCase] is an equivalence: a string equals
    itself, receiver and argument can be exchanged, the relation is
    transitive; and lower-casing the receiver beforehand changes nothing. *)
Theorem equalsIgnoreCase_equivalence :
  (forall a, equalsIgnoreCase a (JString a) = true) /\
  (forall a b,
     equalsIgnoreCase a (JString b) = equalsIgnoreCase b (JString a)) /\
  (forall a b c,
     equalsIgnoreCase a (JString b) = true ->
     equalsIgnoreCase b (JString c) = true ->
     equalsIgnoreCase a (JString c) = true) /\
  (forall a v, equalsIgnoreCase (toLowerCase a) v = equalsIgnoreCase a v).
Proof.
  repeat split.
  - intros a. apply equalsIgnoreCase_true. reflexivity.
  - intros a b. unfold equalsIgnoreCase. cbn [String_]. apply String.eqb_sym.
  - intros a b c Hab Hbc.
    apply equalsIgnoreCase_true in Hab, Hbc. apply equalsIgnoreCase_true.
    unfold same_ignoring_case in *. cbn [String_] in *. congruence.
  - intros a v. unfold equalsIgnoreCase. now rewrite toLowerCase_idem.
Qed.

Lemma equalsIgnoreCase_equivalence_witness :
  equalsIgnoreCase "0xABC1" (JString "0xabc1") = true.
Proof.
  destruct equalsIgnoreCase_equivalence as (_ & _ & Htrans & _).
  apply (Htrans "0xABC1" "0xAbC1" "0xabc1"); reflexivity.
Defined.

End ComparisonProofs.

(* ------------------------------------------------------------------ *)
(** ** The processor at its edges *)

Module ProcessorEdgeProofs.
Import JS Async Config Processor ProcessorEdge JSFacts AsyncFacts.
Import ProcessorProofs.
Local Open Scope js_scope.

Lemma fst_emit {C A} (e : effect C) (m : M C A) : fst (emit e m) = e :: fst m.
Proof. reflexivity. Qed.

Lemma fst_ret {C A} (a : A) : fst (ret a : M C A) = [].
Proof. reflexivity. Qed.

Lemma get_prop_readable (o : jsval) (k k' : string) (v : jsval) :
  get_prop o k = Normal v -> get_prop o k' = Normal
    match get_prop o k' with Normal v' => v' | Abrupt _ => JUndefined end.
Proof. destruct o; unfold get_prop; congruence. Qed.

(** Splits on the head of a body that is one side of an equation. *)
Ltac eq_step :=
  match goal with
  | |- ?m = _ => head_step m
  end; run.

(** X2.  An event object whose fields cannot be read (it has no
    [returnValues], or is itself missing) makes the processor throw a
    [TypeError] before it logs or calls anything. *)
Theorem unreadable_event_is_a_type_error cfg lib eventObj :
  ~ (exists h s b u, carries eventObj h s b u) ->
  processor cfg lib eventObj = ([], Abrupt TypeError).
Proof.
  intros Hno. unfold processor.
  destruct (get_prop eventObj "returnValues") as [rv | e] eqn:Hrv; run;
    [ | type_errors; reflexivity ].
  destruct (get_prop rv "_stakingIntentHash") as [h | e] eqn:Hh; run;
    [ | type_errors; reflexivity ].
  exfalso. apply Hno.
  do 4 eexists. exists rv. split; [ exact Hrv | ].
  split; [ exact Hh | ].
  repeat split; eapply get_prop_readable; exact Hh.
Qed.

Lemma unreadable_event_is_a_type_error_witness :
  processor Sample.cfg Sample.lib_ok SampleEdge.bare_event
    = ([], Abrupt TypeError).
Proof.
  apply (unreadable_event_is_a_type_error Sample.cfg Sample.lib_ok
           SampleEdge.bare_event).
  intros (h & s & b & u & rv & Hrv & Hh & _).
  vm_compute in Hrv. injection Hrv as <-.
  vm_compute in Hh. discriminate Hh.
Defined.

(** X3.  When the configured staker account is not a string, a readable
    event makes the processor throw a [TypeError] at the comparison, before
    it logs or calls anything. *)
Theorem missing_staker_account_is_a_type_error
  cfg lib eventObj h s b u :
  carries eventObj h s b u ->
  (forall account, stakerAddress cfg <> JString account) ->
  processor cfg lib eventObj = ([], Abrupt TypeError).
Proof.
  intros Hc Hacc.
  open_event Hc.
  destruct (stakerAddress cfg) as [ | | ? | account | ?] eqn:E;
    try (now destruct (Hacc account));
    unfold call_equalsIgnoreCase; run; reflexivity.
Qed.

Lemma missing_staker_account_is_a_type_error_witness :
  processor SampleEdge.cfg_without_staker Sample.lib_ok Sample.branded_event
    = ([], Abrupt TypeError).
Proof.
  apply (missing_staker_account_is_a_type_error SampleEdge.cfg_without_staker
           Sample.lib_ok Sample.branded_event (JString "0x1234")
           (JString "0xabc1") (JString "0xbbbb") (JString "0xcccc")).
  - eexists; repeat split; reflexivity.
  - intros account. cbn. discriminate.
Defined.

(** X4.  The uuid is inspected after the two stages only: on an
    authorised event whose uuid is not a string, [processStaking] and
    [processMinting] are both called, and then the processor throws a
    [TypeError]; nothing is looked up or claimed. *)
Theorem uuid_is_checked_after_the_stages
  cfg lib eventObj h s b u account v1 v2 :
  carries eventObj h s b u ->
  stakerAddress cfg = JString account ->
  same_ignoring_case account s ->
  (forall id, u <> JString id) ->
  processStaking lib (stakerAddress cfg) (stakerPassphrase cfg) h
    = Resolved v1 ->
  processMinting lib (stakerAddress cfg) (stakerPassphrase cfg) h
    = Resolved v2 ->
  calls_of (processor cfg lib eventObj)
    = [ProcessStaking (stakerAddress cfg) (stakerPassphrase cfg) h;
       ProcessMinting (stakerAddress cfg) (stakerPassphrase cfg) h] /\
  settle (processor cfg lib eventObj) = RejectedWith TypeError.
Proof.
  intros Hc Hacc Hs Hu H1 H2.
  apply equalsIgnoreCase_true in Hs.
  open_event Hc.
  rewrite H1, H2. rewrite Hacc.
  rewrite call_equalsIgnoreCase_string, Hs. cbn [negb]. run.
  destruct u as [ | | ? | id | ?];
    try (now destruct (Hu id));
    unfold call_equalsIgnoreCase; run; split; reflexivity.
Qed.

Lemma uuid_is_checked_after_the_stages_witness :
  calls_of (processor Sample.cfg Sample.lib_ok SampleEdge.event_without_uuid)
    = [ProcessStaking (JString "0xAbC1") (JString "passphrase")
         (JString "0x1234");
       ProcessMinting (JString "0xAbC1") (JString "passphrase")
         (JString "0x1234")] /\
  settle (processor Sample.cfg Sample.lib_ok SampleEdge.event_without_uuid)
    = RejectedWith TypeError.
Proof.
  apply (uuid_is_checked_after_the_stages Sample.cfg Sample.lib_ok
           SampleEdge.event_without_uuid (JString "0x1234")
           (JString "0xabc1") (JString "0xbbbb") JUndefined "0xAbC1"
           Sample.receipt Sample.receipt).
  - eexists; repeat split; reflexivity.
  - reflexivity.
  - vm_compute. reflexivity.
  - intros id. discriminate.
  - reflexivity.
  - reflexivity.
Defined.

(** X5.  When the lookup resolves with a value from which
    [.data.erc20Address] cannot be read, the processor throws a [TypeError]
    after the lookup: the two stages and the lookup are the calls of the
    run, and nothing is claimed. *)
Theorem lookup_without_data_is_a_type_error
  cfg lib eventObj h s b id account v1 v2 v3 :
  carries eventObj h s b (JString id) ->
  stakerAddress cfg = JString account ->
  same_ignoring_case account s ->
  ~ same_ignoring_case id (OST_OPENSTUTILITY_ST_PRIME_UUID cfg) ->
  processStaking lib (stakerAddress cfg) (stakerPassphrase cfg) h
    = Resolved v1 ->
  processMinting lib (stakerAddress cfg) (stakerPassphrase cfg) h
    = Resolved v2 ->
  registeredTokenProperty lib (JString id) = Resolved v3 ->
  (forall erc20, ~ has_erc20Address v3 erc20) ->
  calls_of (processor cfg lib eventObj)
    = [ProcessStaking (stakerAddress cfg) (stakerPassphrase cfg) h;
       ProcessMinting (stakerAddress cfg) (stakerPassphrase cfg) h;
       RegisteredTokenProperty (JString id)] /\
  settle (processor cfg lib eventObj) = RejectedWith TypeError.
Proof.
  intros Hc Hacc Hs Hid H1 H2 H3 Hno.
  apply equalsIgnoreCase_true in Hs. apply equalsIgnoreCase_false in Hid.
  open_event Hc.
  rewrite H1, H2. rewrite Hacc.
  rewrite !call_equalsIgnoreCase_string, Hs, Hid. cbn [negb]. run.
  rewrite H3. run.
  destruct (get_prop v3 "data") as [data | e] eqn:Hdata; run;
    [ | type_errors; split; reflexivity ].
  destruct (get_prop data "erc20Address") as [erc20 | e] eqn:Herc; run;
    [ | type_errors; split; reflexivity ].
  destruct (Hno erc20). exists data. split; assumption.
Qed.

Lemma lookup_without_data_is_a_type_error_witness :
  calls_of (processor Sample.cfg SampleEdge.lib_lookup_without_data
              Sample.branded_event)
    = [ProcessStaking (JString "0xAbC1") (JString "passphrase")
         (JString "0x1234");
       ProcessMinting (JString "0xAbC1") (JString "passphrase")
         (JString "0x1234");
       RegisteredTokenProperty (JString "0xcccc")] /\
  settle (processor Sample.cfg SampleEdge.lib_lookup_without_data
            Sample.branded_event)
    = RejectedWith TypeError.
Proof.
  apply (lookup_without_data_is_a_type_error Sample.cfg
           SampleEdge.lib_lookup_without_data Sample.branded_event
           (JString "0x1234") (JString "0xabc1") (JString "0xbbbb") "0xcccc"
           "0xAbC1" Sample.receipt Sample.receipt SampleEdge.error_response).
  - eexists; repeat split; reflexivity.
  - reflexivity.
  - vm_compute. reflexivity.
  - unfold same_ignoring_case. vm_compute. discriminate.
  - reflexivity.
  - reflexivity.
  - reflexivity.
  - intros erc20 (data & Hdata & Herc).
    vm_compute in Hdata. injection Hdata as <-.
    vm_compute in Herc. discriminate Herc.
Defined.

(** X6.  What a fulfilled promise tells its receiver.  An error response
    is the one of the staker check, and then no call was made.  A success
    response carries the staking intent hash [h] that was passed to
    [processStaking] and [processMinting], both of which resolved; and
    either these were the only calls, or the lookup and one claim followed
    and resolved too. *)
Theorem fulfilled_response_reports_the_calls cfg lib eventObj r :
  settle (processor cfg lib eventObj) = Fulfilled r ->
  let a := stakerAddress cfg in
  let p := stakerPassphrase cfg in
  let cs := calls_of (processor cfg lib eventObj) in
  (r = unauthorized_response /\ cs = []) \/
  (exists h v1 v2,
     r = success_response h /\
     processStaking lib a p h = Resolved v1 /\
     processMinting lib a p h = Resolved v2 /\
     (cs = [ProcessStaking a p h; ProcessMinting a p h] \/
      exists u m b v3 v4,
        registeredTokenProperty lib u = Resolved v3 /\
        claim lib m a p b = Resolved v4 /\
        cs = [ProcessStaking a p h; ProcessMinting a p h;
              RegisteredTokenProperty u; Claim m a p b])).
Proof.
  intros Hr a p cs. subst a p cs.
  pose proof (processor_run_shape cfg lib eventObj) as H.
  rewrite Hr in H.
  inversion H; subst.
  - left. split; reflexivity.
  - right. do 3 eexists. repeat split; try eassumption. left. reflexivity.
  - right. do 3 eexists. repeat split; try eassumption. right.
    do 5 eexists. repeat split; eassumption.
Qed.

Lemma fulfilled_response_reports_the_calls_witness :
  (success_response (JString "0x1234") = unauthorized_response /\
   calls_of (processor Sample.cfg Sample.lib_ok Sample.native_event) = []) \/
  (exists h v1 v2,
     success_response (JString "0x1234") = success_response h /\
     processStaking Sample.lib_ok (stakerAddress Sample.cfg)
       (stakerPassphrase Sample.cfg) h = Resolved v1 /\
     processMinting Sample.lib_ok (stakerAddress Sample.cfg)
       (stakerPassphrase Sample.cfg) h = Resolved v2 /\
     (calls_of (processor Sample.cfg Sample.lib_ok Sample.native_event)
        = [ProcessStaking (stakerAddress Sample.cfg)
             (stakerPassphrase Sample.cfg) h;
           ProcessMinting (stakerAddress Sample.cfg)
             (stakerPassphrase Sample.cfg) h] \/
      exists u m b v3 v4,
        registeredTokenProperty Sample.lib_ok u = Resolved v3 /\
        claim Sample.lib_ok m (stakerAddress Sample.cfg)
          (stakerPassphrase Sample.cfg) b = Resolved v4 /\
        calls_of (processor Sample.cfg Sample.lib_ok Sample.native_event)
          = [ProcessStaking (stakerAddress Sample.cfg)
               (stakerPassphrase Sample.cfg) h;
             ProcessMinting (stakerAddress Sample.cfg)
               (stakerPassphrase Sample.cfg) h;
             RegisteredTokenProperty u;
             Claim m (stakerAddress Sample.cfg)
               (stakerPassphrase Sample.cfg) b])).
Proof.
  apply (fulfilled_response_reports_the_calls Sample.cfg Sample.lib_ok
           Sample.native_event (success_response (JString "0x1234"))).
  vm_compute. reflexivity.
Defined.

(** X7.  Whatever the event holds, every transaction of a run is sent
    from the configured staker account with the configured passphrase: the
    staker named by the event is compared, never used as a sender. *)
Theorem calls_use_the_configured_account cfg lib eventObj c :
  In c (calls_of (processor cfg lib eventObj)) ->
  uses_configured_account cfg c.
Proof.
  intros Hin.
  pose proof (processor_run_shape cfg lib eventObj) as H.
  inversion H as [ E | E | | | | | | | | ];
    match goal with
    | E : _ = calls_of _ |- _ => rewrite <- E in Hin
    end;
    pick_call Hin; cbn [uses_configured_account]; auto.
Qed.

Lemma calls_use_the_configured_account_witness :
  uses_configured_account Sample.cfg
    (Claim (JObject [("ERC20", JString "0xdddd")]) (JString "0xAbC1")
       (JString "passphrase") (JString "0xbbbb")).
Proof.
  apply (calls_use_the_configured_account Sample.cfg Sample.lib_ok
           SampleEdge.branded_event_upper).
  vm_compute. do 3 right. left. reflexivity.
Defined.

(** X8.  The processor does not look at what a stage or the claim
    resolved with.  If two libraries answer the lookup alike and settle
    every other call the same way (resolved, with any values, or rejected
    with equal reasons), the processor performs the same effects and ends
    the same way with both: a stage that resolves with an error response is
    followed by the next step as if it had succeeded. *)
Theorem stage_answers_are_not_inspected cfg lib lib' eventObj :
  (forall a p h,
     settles_alike (processStaking lib a p h) (processStaking lib' a p h)) ->
  (forall a p h,
     settles_alike (processMinting lib a p h) (processMinting lib' a p h)) ->
  (forall u, registeredTokenProperty lib u = registeredTokenProperty lib' u) ->
  (forall m a p b,
     settles_alike (claim lib m a p b) (claim lib' m a p b)) ->
  processor cfg lib eventObj = processor cfg lib' eventObj.
Proof. apply resolved_values_are_discarded. Qed.

Lemma stage_answers_are_not_inspected_witness :
  processor Sample.cfg Sample.lib_ok Sample.branded_event
    = processor Sample.cfg SampleEdge.lib_error_responses Sample.branded_event.
Proof.
  apply (stage_answers_are_not_inspected Sample.cfg Sample.lib_ok
           SampleEdge.lib_error_responses Sample.branded_event).
  - intros a p h. exact I.
  - intros a p h. exact I.
  - intros u. reflexivity.
  - intros m a p b. exact I.
Defined.

(** X9.  The line [performed claim] is logged exactly when the promise
    is fulfilled with the success response, and with the same staking
    intent hash: also for the native uuid, where nothing is claimed, and
    never when a call was rejected or a read failed. *)
Theorem performed_claim_is_logged_iff_success cfg lib eventObj h :
  In (performed_claim h) (fst (processor cfg lib eventObj)) <->
  settle (processor cfg lib eventObj) = Fulfilled (success_response h).
Proof.
  unfold processor. run.
  repeat case_step.
  all: unfold emit, ret, performed_claim, success_response,
         responseHelper_error, responseHelper_successWithData;
       cbn [fst snd In].
  all: split;
    [ intros H;
      repeat match type of H with
      | _ \/ _ => destruct H as [H | H]
      | False => contradiction
      | _ = _ => first [ discriminate H | injection H as -> ]
      end;
      reflexivity
    | intros H; first [ discriminate H | injection H as -> ];
      repeat first [ left; reflexivity | right ] ].
Qed.

(** X10.  The staker of the event matters up to the case of its letters
    only: two events that carry the same hash, beneficiary and uuid, and
    stakers that lower-case to the same string, are processed alike. *)
Theorem staker_matters_up_to_case cfg lib eventObj eventObj' h s s' b u :
  carries eventObj h s b u ->
  carries eventObj' h s' b u ->
  toLowerCase (String_ s) = toLowerCase (String_ s') ->
  processor cfg lib eventObj = processor cfg lib eventObj'.
Proof.
  intros (rv & Hrv & Hh & Hs & Hb & Hu) (rv' & Hrv' & Hh' & Hs' & Hb' & Hu') E.
  assert (call_equalsIgnoreCase (stakerAddress cfg) s
          = call_equalsIgnoreCase (stakerAddress cfg) s') as Hsame.
  { destruct (stakerAddress cfg); try reflexivity.
    unfold call_equalsIgnoreCase, equalsIgnoreCase. now rewrite E. }
  unfold processor.
  rewrite Hrv, Hrv'. run. rewrite Hh, Hh'. run. rewrite Hs, Hs'. run.
  rewrite Hb, Hb'. run. rewrite Hu, Hu'. run.
  rewrite Hsame. reflexivity.
Qed.

Lemma staker_matters_up_to_case_witness :
  processor Sample.cfg Sample.lib_ok Sample.branded_event
    = processor Sample.cfg Sample.lib_ok SampleEdge.branded_event_upper.
Proof.
  apply (staker_matters_up_to_case Sample.cfg Sample.lib_ok
           Sample.branded_event SampleEdge.branded_event_upper
           (JString "0x1234") (JString "0xabc1") (JString "0XABC1")
           (JString "0xbbbb") (JString "0xcccc")).
  - eexists; repeat split; reflexivity.
  - eexists; repeat split; reflexivity.
  - vm_compute. reflexivity.
Defined.

End ProcessorEdgeProofs.

(* ------------------------------------------------------------------ *)
(** ** The approval service at its edges *)

Module ApproveEdgeProofs.
Import JS Async Config Approve AsyncFacts ProcessorProofs.
Local Open Scope js_scope.

(** X11.  When the balance cannot be had, nothing is approved: the
    service logs that it asks for the balance, calls [balanceOf], and ends
    there, rejected with the reason of [balanceOf] if that was rejected,
    with a [TypeError] if [.data.balance] cannot be read from what it
    resolved with. *)
Theorem no_balance_no_approval cfg lib :
  let asked :=
    [Log LStep [JString "Getting ST Balance of Staker account: ";
                stakerAddress cfg];
     Chain (BalanceOf (stakerAddress cfg))] in
  (forall r,
     st_balanceOf lib (stakerAddress cfg) = Rejected r ->
     approveOpenStValueContract cfg lib = (asked, Abrupt (Thrown r))) /\
  (forall result,
     st_balanceOf lib (stakerAddress cfg) = Resolved result ->
     (forall balance, ~ has_balance result balance) ->
     approveOpenStValueContract cfg lib = (asked, Abrupt TypeError)).
Proof.
  intros asked. subst asked. split.
  - intros r Hbal.
    unfold approveOpenStValueContract, getSTBalance, approve.
    run. rewrite Hbal. run. reflexivity.
  - intros result Hbal Hno.
    unfold approveOpenStValueContract, getSTBalance, approve.
    run. rewrite Hbal. run.
    destruct (get_prop result "data") as [data | e] eqn:Hdata; run;
      [ | type_errors; reflexivity ].
    destruct (get_prop data "balance") as [balance | e] eqn:Hbalance; run;
      [ | type_errors; reflexivity ].
    destruct (Hno balance). exists data. split; assumption.
Qed.

Lemma no_balance_no_approval_witness :
  approveOpenStValueContract Sample.cfg SampleEdge.simple_token_down
    = ([Log LStep [JString "Getting ST Balance of Staker account: ";
                   JString "0xAbC1"];
        Chain (BalanceOf (JString "0xAbC1"))],
       Abrupt (Thrown (JString "connection lost"))) /\
  approveOpenStValueContract Sample.cfg SampleEdge.simple_token_without_data
    = ([Log LStep [JString "Getting ST Balance of Staker account: ";
                   JString "0xAbC1"];
        Chain (BalanceOf (JString "0xAbC1"))],
       Abrupt TypeError).
Proof.
  split.
  - apply (proj1 (no_balance_no_approval Sample.cfg
                    SampleEdge.simple_token_down)).
    reflexivity.
  - apply (proj2 (no_balance_no_approval Sample.cfg
                    SampleEdge.simple_token_without_data)
             SampleEdge.error_response).
    + reflexivity.
    + intros balance (data & Hdata & Hbalance).
      vm_compute in Hdata. injection Hdata as <-.
      vm_compute in Hbalance. discriminate Hbalance.
Defined.

End ApproveEdgeProofs.

(* ------------------------------------------------------------------ *)
(** ** The script *)

Module ScriptProofs.
Import JS Async Config Subscription Script.

Section Init.
Variable queue : Type.
Variable addEditEventInQueue : jsval -> queue -> queue.
Variable setProcessor :
  (jsval -> M Processor.call Processor.response) -> queue -> queue.
Variable cfg : config.
Variable lib : Processor.collaborators.

Notation script := (script queue addEditEventInQueue setProcessor cfg lib).
Notation ingest :=
  (fold_left (fun q eventObj => addEditEventInQueue eventObj q)).

(** What a stream does to a world, through the listeners of
    [bindEvents]. *)
Lemma deliver_bound (w0 : world queue) ns : forall w : world queue,
  deliver queue (fst (bindEvents queue addEditEventInQueue w0)) ns w
    = {| eventQueue := ingest (events_of ns) (eventQueue w);
         console := console w ++ error_lines ns |}.
Proof.
  induction ns as [ | n ns IH]; intros w.
  - cbn. rewrite app_nil_r. now destruct w.
  - cbn [deliver]. rewrite IH. destruct n as [error | eventObj | eventObj].
    + rewrite SubscriptionProofs.notify_error.
      unfold onEventSubscriptionError, logger_write.
      cbn [events_of error_lines eventQueue console].
      now rewrite <- !app_assoc.
    + rewrite SubscriptionProofs.notify_data. reflexivity.
    + rewrite SubscriptionProofs.notify_changed. reflexivity.
Qed.

(** X12.  After the script has run, the notifications of a stream are
    ingested in the order of their delivery: the queue manager is the one
    that was given the processor, with [addEditEventInQueue] applied once
    for each ['data'] and each ['changed'] notification, in order; the
    console holds the three lines of the start, then two lines for each
    ['error']. *)
Theorem script_ingests_in_delivery_order (w : world queue) ns :
  deliver queue (fst (script w)) ns (snd (script w))
    = {| eventQueue :=
           ingest (events_of ns)
             (setProcessor (Processor.processor cfg lib) (eventQueue w));
         console :=
           console w ++
           [(LLog, [JString "bindEvents binding StakingIntentConfirmed"]);
            (LLog, [JString "bindEvents done"]);
            (LWin, [JString
               "InterComm Script for Stake and Mint Processor initiated."])]
           ++ error_lines ns |}.
Proof.
  unfold Script.script, init.
  change (fst (let (subscription, w1) :=
                 bindEvents queue addEditEventInQueue ?w0 in
               (subscription, ?f w1)))
    with (fst (bindEvents queue addEditEventInQueue w0)).
  rewrite deliver_bound. unfold logger_write. cbn.
  now rewrite <- !app_assoc.
Qed.

End Init.

End ScriptProofs.
